(** * Transaction export client (scripts/export-transactions.py)

    A shallow embedding of the [TransactionExporter] class: the job
    request, the bounded status poll, the streamed download and the
    orchestrating [run], together with the properties its specification
    states about them.

    The script talks to three things outside itself: the HTTP service
    (through [requests]), the clock ([time.sleep], [datetime.now]) and the
    local file system.  They are modelled by an explicit environment
    ([env], read only) and an explicit program state ([state]) that every
    operation threads, in a reader/state/exception monad [M].  Output
    written with [print] is not part of the model: no property below
    observes the standard output. *)

From Stdlib Require Import ZArith String List Strings.Byte.
From stdpp Require Import base option list gmap strings pretty.

Set Warnings "-register-all".

Local Open Scope string_scope.
Local Open Scope Z_scope.

(** ** Python values *)

(** The values [response.json()] can return. A JSON object becomes a
    [dict] with string keys, kept as an association list read by its
    first matching key; a JSON number with a fraction or exponent becomes
    a [float], kept by its lexeme. *)
Inductive pyval : Type :=
| PNone
| PBool (b : bool)
| PInt (n : Z)
| PFloat (lexeme : string)
| PStr (s : string)
| PList (items : list pyval)
| PDict (items : list (string * pyval)).

(** [v == s] for a string literal [s]: only the string [s] itself is equal
    to it. *)
Definition py_eq_str (v : pyval) (s : string) : bool :=
  match v with
  | PStr s' => String.eqb s' s
  | _ => false
  end.

(** [d.get(key)] on the association list of a [dict]. *)
Fixpoint dict_lookup (key : string) (items : list (string * pyval)) : option pyval :=
  match items with
  | [] => None
  | (k, v) :: rest => if String.eqb k key then Some v else dict_lookup key rest
  end.

(** [needle in haystack] on two strings: substring test. *)
Fixpoint str_contains (needle haystack : string) : bool :=
  String.prefix needle haystack ||
  match haystack with
  | EmptyString => false
  | String _ rest => str_contains needle rest
  end.

(** ** Exceptions *)

(** The exception classes the script can meet. [RequestException] stands
    for [requests.exceptions.RequestException] and all its subclasses
    (connection errors, timeouts, [HTTPError], chunked-encoding errors,
    invalid URLs, and the JSON decoding error of [response.json()]);
    [Exception] is a plain [Exception(msg)] as the script itself raises.
    [SystemExit] does not derive from [Exception]. *)
Inductive exn : Type :=
| RequestException (detail : string)
| Exception (msg : string)
| TypeError
| AttributeError
| KeyError
| ValueError
| OSError (detail : string)
| SystemExit (code : Z).

(** [except requests.exceptions.RequestException] *)
Definition is_RequestException (e : exn) : bool :=
  match e with
  | RequestException _ => true
  | _ => false
  end.

(** [except Exception] *)
Definition is_Exception (e : exn) : bool :=
  match e with
  | SystemExit _ => false
  | _ => true
  end.

(** ** The world outside the script *)

(** An HTTP response as the script reads it: the status code, what
    [response.json()] yields ([None] when the body is not JSON), and what
    [response.iter_content] yields: the chunks in order and, when the
    transfer breaks, the error raised after the last of them. *)
Record response : Type := {
  status_code : Z;
  json_body : option pyval;
  content : list (list byte);
  stream_error : option string
}.

(** The outcome of [requests.get] / [requests.post]: an exception before
    any response (connection refused, timeout, unusable URL), or a
    response. *)
Inductive reply : Type :=
| ConnectionFailed (detail : string)
| Responded (r : response).

(** What the run cannot influence. [net k] answers the [k]-th network call
    of the process (counted from 0); [can_open] tells whether the
    operating system lets [open(path, 'wb')] succeed; a write that would
    take a file beyond [max_file_size] bytes is refused; [now_iso] is
    [datetime.now().isoformat()]; [str_builtin] is Python's [str()] on the
    values whose rendering the model does not spell out (floats, lists
    and dicts). *)
Record env : Type := {
  net : nat → reply;
  can_open : string → bool;
  max_file_size : N;
  now_iso : string;
  str_builtin : pyval → string
}.

(** What the script does to the world, in order. *)
Inductive event : Type :=
| HttpPost (url : string) (params : list (string * string)) (timeout : Z)
| HttpGet (url : pyval) (stream : bool) (timeout : Z)
| Sleep (seconds : Z).

(** The state a run threads: how many network calls were made, the
    regular files of the working directory, and the events so far. *)
Record state : Type := {
  calls : nat;
  files : gmap string (list byte);
  trace : list event
}.

Definition is_query (ev : event) : bool :=
  match ev with
  | HttpGet _ false _ => true
  | _ => false
  end.

Definition is_network (ev : event) : bool :=
  match ev with
  | HttpPost _ _ _ | HttpGet _ _ _ => true
  | Sleep _ => false
  end.

Definition is_delay (ev : event) : bool :=
  match ev with
  | Sleep _ => true
  | _ => false
  end.

(** Number of events of a kind in a trace. *)
Definition count (p : event → bool) (t : list event) : nat :=
  List.length (filter (λ ev, p ev = true) t).

(** ** The monad *)

Inductive outcome (A : Type) : Type :=
| Ok (a : A)
| Raise (e : exn).
Arguments Ok {A} a.
Arguments Raise {A} e.

Definition M (A : Type) : Type := env → state → outcome A * state.

#[export] Instance M_ret : MRet M := λ A a _ st, (Ok a, st).

#[export] Instance M_bind : MBind M := λ A B f m E st,
  match m E st with
  | (Ok a, st') => f a E st'
  | (Raise e, st') => (Raise e, st')
  end.

Definition raise {A} (e : exn) : M A := λ _ st, (Raise e, st).

Definition ask : M env := λ E st, (Ok E, st).

(** [try: body except <classes> as e: handler e]. An exception raised by
    the handler itself is not caught again. *)
Definition try_except {A} (body : M A) (classes : exn → bool) (handler : exn → M A) : M A :=
  λ E st,
    match body E st with
    | (Raise e, st') => if classes e then handler e E st' else (Raise e, st')
    | r => r
    end.

(** ** Library calls *)

Definition log (ev : event) : M unit := λ _ st,
  (Ok tt, {| calls := calls st; files := files st; trace := trace st ++ [ev] |}).

(** One call into [requests]: the request is recorded, the environment's
    next reply is consumed. *)
Definition network_call (ev : event) : M response := λ E st,
  let st' := {| calls := S (calls st); files := files st; trace := trace st ++ [ev] |} in
  match net E (calls st) with
  | ConnectionFailed detail => (Raise (RequestException detail), st')
  | Responded r => (Ok r, st')
  end.

Definition requests_post (url : string) (params : list (string * string)) (timeout : Z)
  : M response :=
  network_call (HttpPost url params timeout).

Definition requests_get (url : pyval) (stream : bool) (timeout : Z) : M response :=
  network_call (HttpGet url stream timeout).

(** [response.raise_for_status()]: an [HTTPError] for the 4xx and 5xx
    codes. *)
Definition http_error (code : Z) : bool := (400 <=? code) && (code <? 600).

Definition raise_for_status (r : response) : M unit :=
  if http_error (status_code r)
  then raise (RequestException ("HTTPError " ++ pretty (status_code r)))
  else mret tt.

(** [response.json()] *)
Definition response_json (r : response) : M pyval :=
  match json_body r with
  | Some v => mret v
  | None => raise (RequestException "JSONDecodeError")
  end.

(** [time.sleep(seconds)]; a negative length is a [ValueError]. *)
Definition time_sleep (seconds : Z) : M unit :=
  if seconds <? 0 then raise ValueError else log (Sleep seconds).

(** [key in v] for a string [key]: a key of a dict, an element of a list,
    a substring of a string; the other values are not iterable. *)
Definition py_in (key : string) (v : pyval) : M bool :=
  match v with
  | PDict items => mret (bool_decide (is_Some (dict_lookup key items)))
  | PList items => mret (existsb (λ x, py_eq_str x key) items)
  | PStr s => mret (str_contains key s)
  | _ => raise TypeError
  end.

(** [v[key]] for a string [key]. *)
Definition py_getitem (v : pyval) (key : string) : M pyval :=
  match v with
  | PDict items =>
      match dict_lookup key items with
      | Some x => mret x
      | None => raise KeyError
      end
  | _ => raise TypeError
  end.

(** [v.get(key)]: only a dict has the method. *)
Definition py_get (v : pyval) (key : string) : M pyval :=
  match v with
  | PDict items => mret (default PNone (dict_lookup key items))
  | _ => raise AttributeError
  end.

(** [str(v)], as an f-string renders a value. *)
Definition py_str (E : env) (v : pyval) : string :=
  match v with
  | PStr s => s
  | PNone => "None"
  | PBool true => "True"
  | PBool false => "False"
  | PInt n => pretty n
  | _ => str_builtin E v
  end.

Definition fstr (v : pyval) : M string := λ E st, (Ok (py_str E v), st).

(** ** Files *)

Definition set_files (fs : gmap string (list byte)) (st : state) : state :=
  {| calls := calls st; files := fs; trace := trace st |}.

(** [open(filename, 'wb')]: the file is created, or truncated if it is
    there. *)
Definition open_wb (filename : string) : M unit := λ E st,
  if can_open E filename
  then (Ok tt, set_files (<[filename := []]> (files st)) st)
  else (Raise (OSError "open"), st).

(** [file.write(chunk)] on the file opened at [filename]. *)
Definition file_write (filename : string) (chunk : list byte) : M unit := λ E st,
  let old : list byte := default [] (files st !! filename) in
  if (N.of_nat (List.length old + List.length chunk) <=? max_file_size E)%N
  then (Ok tt, set_files (<[filename := (old ++ chunk)%list]> (files st)) st)
  else (Raise (OSError "write"), st).

(** [os.path.exists(filename)] *)
Definition os_path_exists (filename : string) : M bool := λ _ st,
  (Ok (bool_decide (is_Some (files st !! filename))), st).

(** [os.remove(filename)]; removing a file that is not there is a
    [FileNotFoundError], an [OSError]. *)
Definition os_remove (filename : string) : M unit := λ _ st,
  match files st !! filename with
  | Some _ => (Ok tt, set_files (delete filename (files st)) st)
  | None => (Raise (OSError "remove"), st)
  end.

(** ** The exporter *)

Record TransactionExporter : Type := {
  base_url : string;
  address : string;
  chain_id : string;
  contract_created_date : string;
  current_date : string;
  transaction_limit : Z
}.

(** [TransactionExporter.__init__]: the fields are constants, but for
    [current_date], which reads the clock. *)
Definition new_exporter (now : string) : TransactionExporter :=
  {| base_url := "https://cdn.routescan.io/api/evm/all/exports";
     address := "0x1D74317d760f2c72A94386f50E8D10f2C902b899";
     chain_id := "57073";
     contract_created_date := "2024-12-28T13:51:06.000Z";
     current_date := now ++ "Z";
     transaction_limit := 63956 |}.

Definition TransactionExporter_init : M TransactionExporter :=
  E ← ask;
  mret (new_exporter (now_iso E)).

Definition export_params (self : TransactionExporter) : list (string * string) :=
  [ ("includedChainIds", chain_id self);
    ("address", address self);
    ("limit", pretty (transaction_limit self));
    ("dateFrom", contract_created_date self);
    ("dateTo", current_date self);
    ("csvSeparator", ",") ].

Definition initiate_export (self : TransactionExporter) : M pyval :=
  let export_url := base_url self ++ "/transactions" in
  let params := export_params self in
  try_except
    (response ← requests_post export_url params 30;
     _ ← raise_for_status response;
     data ← response_json response;
     found ← py_in "exportId" data;
     if found : bool
     then py_getitem data "exportId"
     else (shown ← fstr data;
           raise (Exception ("Failed to initiate export: " ++ shown))))
    is_RequestException
    (λ e, raise e).

Definition check_export_status (self : TransactionExporter) (export_id : pyval) : M pyval :=
  shown ← fstr export_id;
  let status_url := base_url self ++ "/" ++ shown in
  try_except
    (response ← requests_get (PStr status_url) false 30;
     _ ← raise_for_status response;
     response_json response)
    is_RequestException
    (λ e, raise e).

(** One turn of the [for attempt in range(1, max_attempts + 1)] loop of
    [poll_for_completion]: [Some url] when the body executes
    [return url], [None] when it falls through to the next turn. The
    [raise Exception("Export failed")] sits inside the [try], as in the
    source. *)
Definition poll_attempt (self : TransactionExporter) (export_id : pyval)
    (max_attempts interval_seconds attempt : Z) : M (option pyval) :=
  try_except
    (status ← check_export_status self export_id;
     reported ← py_get status "status";
     if py_eq_str reported "succeeded" then
       url ← py_get status "url";
       mret (Some url)
     else if py_eq_str reported "failed" then
       raise (Exception "Export failed")
     else if py_eq_str reported "running" then
       _ ← time_sleep interval_seconds;
       mret None
     else
       _ ← time_sleep interval_seconds;
       mret None)
    is_Exception
    (λ e,
       if attempt =? max_attempts then raise e
       else (_ ← time_sleep interval_seconds; mret None)).

(** The loop over the remaining attempt numbers, and the statement after
    it. *)
Fixpoint poll_loop (self : TransactionExporter) (export_id : pyval)
    (max_attempts interval_seconds : Z) (attempts : list Z) : M pyval :=
  match attempts with
  | [] =>
      raise (Exception ("Export did not complete within "
                          ++ pretty max_attempts ++ " attempts"))
  | attempt :: rest =>
      returned ← poll_attempt self export_id max_attempts interval_seconds attempt;
      match returned with
      | Some url => mret url
      | None => poll_loop self export_id max_attempts interval_seconds rest
      end
  end.

(** [range(1, max_attempts + 1)] is [seqZ 1 max_attempts]: empty when
    [max_attempts <= 0]. *)
Definition poll_for_completion (self : TransactionExporter) (export_id : pyval)
    (max_attempts interval_seconds : Z) : M pyval :=
  poll_loop self export_id max_attempts interval_seconds (seqZ 1 max_attempts).

(** The [for chunk in response.iter_content(...)] loop: every non-empty
    chunk is written; a transfer that breaks raises after its last
    chunk. *)
Fixpoint write_chunks (filename : string) (chunks : list (list byte))
    (broken : option string) : M unit :=
  match chunks with
  | [] =>
      match broken with
      | Some detail => raise (RequestException detail)
      | None => mret tt
      end
  | chunk :: rest =>
      _ ← match chunk with
          | [] => mret tt
          | _ :: _ => file_write filename chunk
          end;
      write_chunks filename rest broken
  end.

Definition download_file (self : TransactionExporter) (url : pyval) (filename : string)
  : M string :=
  try_except
    (response ← requests_get url true 300;
     _ ← raise_for_status response;
     _ ← open_wb filename;
     _ ← write_chunks filename (content response) (stream_error response);
     mret filename)
    is_RequestException
    (λ e,
       present ← os_path_exists filename;
       _ ← (if present : bool then os_remove filename else mret tt);
       raise e).

(** [sys.exit(code)] *)
Definition sys_exit {A} (code : Z) : M A := raise (SystemExit code).

Definition output_name (E : env) (export_id : pyval) : string :=
  "transactions_" ++ py_str E export_id ++ ".zip".

Definition run (self : TransactionExporter) : M unit :=
  try_except
    (export_id ← initiate_export self;
     download_url ← poll_for_completion self export_id 60 5;
     E ← ask;
     let filename := output_name E export_id in
     _ ← download_file self download_url filename;
     mret tt)
    is_Exception
    (λ e, sys_exit 1).

(** The [if __name__ == "__main__"] block, as the exit status of the
    process: 0 when [run] returns, the code of a [SystemExit], 1 for any
    other exception that reaches the top. *)
Definition main (E : env) (st : state) : Z * state :=
  match (exporter ← TransactionExporter_init; run exporter) E st with
  | (Ok _, st') => (0, st')
  | (Raise (SystemExit code), st') => (code, st')
  | (Raise _, st') => (1, st')
  end.

(** * Notions used by the statements *)

(** ** Vocabulary of the specification *)

(** The specification names the failures by kind; the script raises plain
    exceptions, told apart by where they are raised. *)

(** [ExportFailed]: the [raise Exception("Export failed")] of the poller. *)
Definition ExportFailed : exn := Exception "Export failed".

(** [PollTimeout]: the exception raised after the polling loop. *)
Definition PollTimeout (max_attempts : Z) : exn :=
  Exception ("Export did not complete within " ++ pretty max_attempts ++ " attempts").

(** [RequestFailed], for a creation response without identifier. *)
Definition RequestFailed (E : env) (data : pyval) : exn :=
  Exception ("Failed to initiate export: " ++ py_str E data).

(** The JSON value a reply carries for a caller that checks the status
    and decodes the body; [None] if either of the two raises. *)
Definition json_of_reply (r : reply) : option pyval :=
  match r with
  | ConnectionFailed _ => None
  | Responded r => if http_error (status_code r) then None else json_body r
  end.

(** The status request for a job, and the creation request. *)
Definition status_query (self : TransactionExporter) (E : env) (export_id : pyval) : event :=
  HttpGet (PStr (base_url self ++ "/" ++ py_str E export_id)) false 30.

Definition creation_request (self : TransactionExporter) : event :=
  HttpPost (base_url self ++ "/transactions") (export_params self) 30.

(** The state after [n] more network calls that left the events [evs]. *)
Definition advance (n : nat) (evs : list event) (st : state) : state :=
  {| calls := (calls st + n)%nat; files := files st; trace := trace st ++ evs |}.

(** [n] polls that each found the job running. *)
Fixpoint waiting (q : event) (interval_seconds : Z) (n : nat) : list event :=
  match n with
  | O => []
  | S n' => q :: Sleep interval_seconds :: waiting q interval_seconds n'
  end.

(** ** Auxiliary notions *)

(** The status a reply reports, when it decodes to a dict that has one. *)
Definition reported_status (r : reply) : option pyval :=
  match json_of_reply r with
  | Some (PDict d) => dict_lookup "status" d
  | _ => None
  end.

(** The reply makes the poller wait: it decodes to a dict whose status
    is neither [succeeded] nor [failed] ([running], any other value, or
    no status at all). *)
Definition keeps_waiting (r : reply) : bool :=
  match json_of_reply r with
  | Some (PDict d) =>
      negb (py_eq_str (default PNone (dict_lookup "status" d)) "succeeded")
      && negb (py_eq_str (default PNone (dict_lookup "status" d)) "failed")
  | _ => false
  end.

(** The [try] block of a turn of [poll_for_completion]. *)
Definition poll_try (self : TransactionExporter) (export_id : pyval)
    (interval_seconds : Z) : M (option pyval) :=
  status ← check_export_status self export_id;
  reported ← py_get status "status";
  if py_eq_str reported "succeeded" then
    url ← py_get status "url";
    mret (Some url)
  else if py_eq_str reported "failed" then
    raise (Exception "Export failed")
  else if py_eq_str reported "running" then
    _ ← time_sleep interval_seconds;
    mret None
  else
    _ ← time_sleep interval_seconds;
    mret None.

(** The loop of [poll_for_completion] from turn [attempt] on. *)
Definition poll_from (self : TransactionExporter) (export_id : pyval)
    (max_attempts interval_seconds attempt : Z) : M pyval :=
  poll_loop self export_id max_attempts interval_seconds
    (seqZ attempt (max_attempts - attempt + 1)).

(** The [try] block of [download_file]. *)
Definition download_try (url : pyval) (filename : string) : M string :=
  response ← requests_get url true 300;
  _ ← raise_for_status response;
  _ ← open_wb filename;
  _ ← write_chunks filename (content response) (stream_error response);
  mret filename.

(** How the transport of a request fails, if it does: no response at
    all, a status that [raise_for_status] turns into an [HTTPError] (4xx
    or 5xx), or a body whose transfer breaks. The text is the detail of
    the [RequestException] that [requests] raises. *)
Definition transport_failure (rep : reply) : option string :=
  match rep with
  | ConnectionFailed detail => Some detail
  | Responded r =>
      if http_error (status_code r)
      then Some ("HTTPError " ++ pretty (status_code r))
      else stream_error r
  end.

(** The state once the download request is answered and the destination
    is open. *)
Definition opened (url : pyval) (filename : string) (st : state) : state :=
  set_files (<[filename := []]> (files st)) (advance 1 [HttpGet url true 300] st).

(** The exporter that [main] builds. *)
Definition the_exporter (E : env) : TransactionExporter := new_exporter (now_iso E).

(** The run fails in the request or in the poll. *)
Definition fails_before_download (self : TransactionExporter) (E : env) (st : state) : bool :=
  match initiate_export self E st with
  | (Raise _, _) => true
  | (Ok export_id, st1) =>
      match poll_for_completion self export_id 60 5 E st1 with
      | (Raise _, _) => true
      | (Ok _, _) => false
      end
  end.

(** [m] does not touch the files. *)
Definition keeps_files {A} (m : M A) : Prop :=
  ∀ E st, files (snd (m E st)) = files st.

(** Whatever [m] raises derives from [Exception]. *)
Definition no_exit {A} (m : M A) : Prop :=
  ∀ E st e st', m E st = (Raise e, st') → is_Exception e = true.

(** ** Sample worlds *)

Definition json_reply (v : pyval) : reply :=
  Responded {| status_code := 200; json_body := Some v;
               content := []; stream_error := None |}.

Definition status_reply (s : string) : reply :=
  json_reply (PDict [("status", PStr s)]).

Definition succeeded_reply (url : string) : reply :=
  json_reply (PDict [("status", PStr "succeeded"); ("url", PStr url)]).

(** A transfer of two chunks that breaks after them. *)
Definition broken_download : reply :=
  Responded {| status_code := 200; json_body := None;
               content := [[x50; x4b]; [x03; x04]];
               stream_error := Some "IncompleteRead" |}.

(** Three chunks of two bytes for a file that may hold five. *)
Definition oversized_download : reply :=
  Responded {| status_code := 200; json_body := None;
               content := [[x50; x4b]; [x03; x04]; [x14; x00]];
               stream_error := None |}.

(** A transfer of two chunks that completes. *)
Definition complete_download : reply :=
  Responded {| status_code := 200; json_body := None;
               content := [[x50; x4b]; [x03; x04]];
               stream_error := None |}.

(** A service that gives the listed replies in order and then refuses
    connections, on a machine that accepts every file up to [limit]
    bytes. *)
Definition scripted (replies : list reply) (limit : N) : env :=
  {| net := λ k, nth k replies (ConnectionFailed "connection refused");
     can_open := λ _, true;
     max_file_size := limit;
     now_iso := "2025-06-01T12:00:00";
     str_builtin := λ _, "?" |}.

(** The same world, where no file can be opened for writing. *)
Definition read_only (E : env) : env :=
  {| net := net E;
     can_open := λ _, false;
     max_file_size := max_file_size E;
     now_iso := now_iso E;
     str_builtin := str_builtin E |}.

(** A status that is no success and no error for [raise_for_status]. *)
Definition not_modified : reply :=
  Responded {| status_code := 304; json_body := None;
               content := []; stream_error := None |}.

(** An error status. *)
Definition not_found : reply :=
  Responded {| status_code := 404; json_body := None;
               content := []; stream_error := None |}.

Definition fresh : state := {| calls := 0; files := ∅; trace := [] |}.

Definition sample_exporter : TransactionExporter := new_exporter "2025-06-01T12:00:00".

(** * Proofs *)

(** ** The monad's equations *)

Lemma bind_ok {A B} (m : M A) (f : A → M B) E st a st' :
  m E st = (Ok a, st') → (m ≫= f) E st = f a E st'.
Proof. intros H. unfold mbind, M_bind. now rewrite H. Qed.

Lemma bind_raise {A B} (m : M A) (f : A → M B) E st e st' :
  m E st = (Raise e, st') → (m ≫= f) E st = (Raise e, st').
Proof. intros H. unfold mbind, M_bind. now rewrite H. Qed.

Lemma try_ok {A} (body : M A) classes handler E st a st' :
  body E st = (Ok a, st') → try_except body classes handler E st = (Ok a, st').
Proof. intros H. unfold try_except. now rewrite H. Qed.

Lemma try_caught {A} (body : M A) classes handler E st e st' :
  body E st = (Raise e, st') → classes e = true →
  try_except body classes handler E st = handler e E st'.
Proof. intros H Hc. unfold try_except. now rewrite H, Hc. Qed.

Lemma try_passed {A} (body : M A) classes handler E st e st' :
  body E st = (Raise e, st') → classes e = false →
  try_except body classes handler E st = (Raise e, st').
Proof. intros H Hc. unfold try_except. now rewrite H, Hc. Qed.

Lemma advance_0 st : advance 0 [] st = st.
Proof.
  destruct st as [c fs t]. unfold advance. simpl.
  now rewrite Nat.add_0_r, app_nil_r.
Qed.

Lemma advance_advance n m evs evs' st :
  advance m evs' (advance n evs st) = advance (n + m) (evs ++ evs') st.
Proof.
  unfold advance. simpl. now rewrite Nat.add_assoc, app_assoc.
Qed.

(** ** One status query *)

Lemma network_call_state ev E st :
  snd (network_call ev E st) = advance 1 [ev] st.
Proof.
  unfold network_call, advance. rewrite Nat.add_1_r.
  now destruct (net E (calls st)).
Qed.

(** A query whose reply decodes returns the decoded value. *)
Lemma check_export_status_ok self export_id E st v :
  json_of_reply (net E (calls st)) = Some v →
  check_export_status self export_id E st
  = (Ok v, advance 1 [status_query self E export_id] st).
Proof.
  intros H. unfold check_export_status, fstr, requests_get, network_call,
    raise_for_status, response_json, try_except, mbind, M_bind, advance, status_query.
  rewrite Nat.add_1_r.
  destruct (net E (calls st)) as [detail | r]; simpl in H; [discriminate |].
  destruct (http_error (status_code r)); [discriminate |].
  now rewrite H.
Qed.

(** A query always makes exactly one network call, and an exception it
    raises comes from [requests]. *)
Lemma check_export_status_state self export_id E st :
  snd (check_export_status self export_id E st)
  = advance 1 [status_query self E export_id] st.
Proof.
  unfold check_export_status, fstr, requests_get, network_call,
    raise_for_status, response_json, try_except, mbind, M_bind, advance, status_query.
  rewrite Nat.add_1_r.
  destruct (net E (calls st)) as [detail | r]; [reflexivity |].
  destruct (http_error (status_code r)); [reflexivity |].
  now destruct (json_body r).
Qed.

Lemma check_export_status_raises self export_id E st e st' :
  check_export_status self export_id E st = (Raise e, st') →
  is_RequestException e = true.
Proof.
  unfold check_export_status, fstr, requests_get, network_call,
    raise_for_status, response_json, try_except, mbind, M_bind.
  destruct (net E (calls st)) as [detail | r]; simpl.
  - intros [= <- _]. reflexivity.
  - destruct (http_error (status_code r)); simpl.
    + intros [= <- _]. reflexivity.
    + destruct (json_body r); simpl; [discriminate |].
      intros [= <- _]. reflexivity.
Qed.

(** ** One turn of the polling loop *)

Lemma time_sleep_ok seconds E st :
  0 ≤ seconds → time_sleep seconds E st = (Ok tt, advance 0 [Sleep seconds] st).
Proof.
  intros H. unfold time_sleep, log, advance.
  destruct (Z.ltb_spec seconds 0) as [Hlt | _]; [lia |].
  now rewrite Nat.add_0_r.
Qed.

Section Turn.
Variables (self : TransactionExporter) (export_id : pyval).
Variables (max_attempts interval_seconds attempt : Z).
Variables (E : env) (st st1 : state).

Local Abbreviation turn :=
  (poll_attempt self export_id max_attempts interval_seconds attempt).

(** [succeeded]: the turn returns whatever [status.get("url")] gives. *)
Lemma poll_attempt_succeeded d :
  check_export_status self export_id E st = (Ok (PDict d), st1) →
  dict_lookup "status" d = Some (PStr "succeeded") →
  turn E st = (Ok (Some (default PNone (dict_lookup "url" d))), st1).
Proof.
  intros Hq Hs. unfold poll_attempt.
  apply try_ok. rewrite (bind_ok _ _ _ _ _ _ Hq).
  unfold py_get, mbind, M_bind, mret, M_ret. now rewrite Hs.
Qed.

(** [running]: one delay, and on to the next turn. *)
Lemma poll_attempt_running d :
  check_export_status self export_id E st = (Ok (PDict d), st1) →
  dict_lookup "status" d = Some (PStr "running") →
  0 ≤ interval_seconds →
  turn E st = (Ok None, advance 0 [Sleep interval_seconds] st1).
Proof.
  intros Hq Hs Hi. unfold poll_attempt.
  apply try_ok. rewrite (bind_ok _ _ _ _ _ _ Hq).
  unfold py_get, mbind, M_bind, mret, M_ret. rewrite Hs. simpl.
  now rewrite (time_sleep_ok _ _ _ Hi).
Qed.

(** [failed] on a turn that is not the last: the exception raised in the
    [try] is caught by its own [except Exception]; the turn sleeps and
    the loop goes on. *)
Lemma poll_attempt_failed_retry d :
  check_export_status self export_id E st = (Ok (PDict d), st1) →
  dict_lookup "status" d = Some (PStr "failed") →
  attempt ≠ max_attempts →
  0 ≤ interval_seconds →
  turn E st = (Ok None, advance 0 [Sleep interval_seconds] st1).
Proof.
  intros Hq Hs Hne Hi. unfold poll_attempt.
  erewrite try_caught with (e := Exception "Export failed") (st' := st1);
    [| | reflexivity].
  - destruct (Z.eqb_spec attempt max_attempts) as [Heq | _]; [contradiction |].
    unfold mbind, M_bind, mret, M_ret. now rewrite (time_sleep_ok _ _ _ Hi).
  - rewrite (bind_ok _ _ _ _ _ _ Hq).
    unfold py_get, mbind, M_bind, mret, M_ret. now rewrite Hs.
Qed.

(** [failed] on the last turn: the exception leaves the poller. *)
Lemma poll_attempt_failed_last d :
  check_export_status self export_id E st = (Ok (PDict d), st1) →
  dict_lookup "status" d = Some (PStr "failed") →
  attempt = max_attempts →
  turn E st = (Raise ExportFailed, st1).
Proof.
  intros Hq Hs Heq. unfold poll_attempt.
  erewrite try_caught with (e := Exception "Export failed") (st' := st1);
    [| | reflexivity].
  - rewrite Heq, Z.eqb_refl. reflexivity.
  - rewrite (bind_ok _ _ _ _ _ _ Hq).
    unfold py_get, mbind, M_bind, mret, M_ret. now rewrite Hs.
Qed.


End Turn.

(** ** The polling loop *)

Lemma poll_for_completion_from_1 self export_id max_attempts interval_seconds :
  poll_for_completion self export_id max_attempts interval_seconds
  = poll_from self export_id max_attempts interval_seconds 1.
Proof.
  unfold poll_for_completion, poll_from. do 2 f_equal. lia.
Qed.

Lemma reported_status_dict r s :
  reported_status r = Some s →
  ∃ d, json_of_reply r = Some (PDict d) ∧ dict_lookup "status" d = Some s.
Proof.
  unfold reported_status. destruct (json_of_reply r) as [[] |]; try discriminate.
  eauto.
Qed.

Section Loop.
Variables (self : TransactionExporter) (export_id : pyval).
Variables (max_attempts interval_seconds : Z).

Local Abbreviation loop := (poll_loop self export_id max_attempts interval_seconds).
Local Abbreviation turn := (poll_attempt self export_id max_attempts interval_seconds).

Lemma poll_loop_next attempt rest E st st' :
  turn attempt E st = (Ok None, st') →
  loop (attempt :: rest) E st = loop rest E st'.
Proof. intros H. simpl. now rewrite (bind_ok _ _ _ _ _ _ H). Qed.

Lemma poll_loop_return attempt rest E st url st' :
  turn attempt E st = (Ok (Some url), st') →
  loop (attempt :: rest) E st = (Ok url, st').
Proof. intros H. simpl. now rewrite (bind_ok _ _ _ _ _ _ H). Qed.

Lemma poll_loop_raise attempt rest E st e st' :
  turn attempt E st = (Raise e, st') →
  loop (attempt :: rest) E st = (Raise e, st').
Proof. intros H. simpl. now rewrite (bind_raise _ _ _ _ _ _ H). Qed.

(** A turn that finds the job running. *)
Lemma poll_loop_running attempt rest E st :
  reported_status (net E (calls st)) = Some (PStr "running") →
  0 ≤ interval_seconds →
  loop (attempt :: rest) E st
  = loop rest E
      (advance 1 [status_query self E export_id; Sleep interval_seconds] st).
Proof.
  intros Hr Hi. apply reported_status_dict in Hr as (d & Hj & Hs).
  apply (check_export_status_ok self export_id) in Hj.
  erewrite poll_loop_next.
  2: { eapply poll_attempt_running; eauto. }
  now rewrite advance_advance.
Qed.

(** As many turns as there are attempt numbers left, all finding the job
    running: the loop ends and the timeout is raised. *)
Lemma poll_loop_all_running E (n : nat) : ∀ first st,
  0 ≤ interval_seconds →
  (∀ i, (i < n)%nat →
        reported_status (net E (calls st + i)) = Some (PStr "running")) →
  loop (seqZ first (Z.of_nat n)) E st
  = (Raise (PollTimeout max_attempts),
     advance n (waiting (status_query self E export_id) interval_seconds n) st).
Proof.
  induction n as [| n IH]; intros first st Hi Hrun.
  - simpl. now rewrite advance_0.
  - rewrite seqZ_cons by lia.
    replace (Z.pred (Z.of_nat (S n))) with (Z.of_nat n) by lia.
    rewrite poll_loop_running; [| | exact Hi].
    2: { rewrite <- (Nat.add_0_r (calls st)). apply Hrun. lia. }
    rewrite IH; [| exact Hi |].
    + now rewrite advance_advance.
    + intros i Hlt. simpl.
      replace (calls st + 1 + i)%nat with (calls st + S i)%nat by lia.
      apply Hrun. lia.
Qed.
End Loop.

Lemma count_app p t1 t2 : count p (t1 ++ t2) = (count p t1 + count p t2)%nat.
Proof. unfold count. now rewrite filter_app, length_app. Qed.

Lemma waiting_queries self E export_id interval_seconds n :
  count is_query (waiting (status_query self E export_id) interval_seconds n) = n
  ∧ count is_network (waiting (status_query self E export_id) interval_seconds n) = n
  ∧ count is_delay (waiting (status_query self E export_id) interval_seconds n) = n.
Proof.
  induction n as [| n (IH1 & IH2 & IH3)]; [easy |].
  change (waiting (status_query self E export_id) interval_seconds (S n))
    with ([status_query self E export_id; Sleep interval_seconds]
            ++ waiting (status_query self E export_id) interval_seconds n)%list.
  rewrite !count_app, IH1, IH2, IH3. easy.
Qed.

(** ** The poller *)

(** C2. For every attempt budget [n]: if each of the [n] status queries
    reports [running], [poll_for_completion] makes exactly [n] queries
    (each followed by one delay) and then raises the timeout exception,
    [PollTimeout]. *)
Theorem poll_timeout_after_budget self export_id interval_seconds E st (n : nat) :
  0 ≤ interval_seconds →
  (∀ i, (i < n)%nat →
        reported_status (net E (calls st + i)) = Some (PStr "running")) →
  let polls := waiting (status_query self E export_id) interval_seconds n in
  poll_for_completion self export_id (Z.of_nat n) interval_seconds E st
  = (Raise (PollTimeout (Z.of_nat n)), advance n polls st)
  ∧ count is_query polls = n
  ∧ count is_network polls = n.
Proof.
  intros Hi Hrun polls. split.
  - unfold poll_for_completion. now apply poll_loop_all_running.
  - pose proof (waiting_queries self E export_id interval_seconds n). tauto.
Qed.

Lemma poll_timeout_after_budget_3 :
  let E := scripted [status_reply "running"; status_reply "running";
                     status_reply "running"] 1000 in
  let q := status_query sample_exporter E (PStr "abc123") in
  poll_for_completion sample_exporter (PStr "abc123") 3 5 E fresh
  = (Raise (Exception "Export did not complete within 3 attempts"),
     advance 3 [q; Sleep 5; q; Sleep 5; q; Sleep 5] fresh)
  ∧ count is_query [q; Sleep 5; q; Sleep 5; q; Sleep 5] = 3%nat
  ∧ count is_network [q; Sleep 5; q; Sleep 5; q; Sleep 5] = 3%nat.
Proof.
  intros E q.
  apply (poll_timeout_after_budget sample_exporter (PStr "abc123") 5 E fresh 3).
  - lia.
  - intros i Hlt. destruct i as [| [| [| i]]]; [reflexivity .. | lia].
Defined.

(** C3. With the status sequence [running], [running], [succeeded] with
    url [U] and a budget of at least 3, [poll_for_completion] returns [U]
    after exactly 3 status queries and 2 delays. *)
Theorem poll_returns_url_on_third_query
    self export_id max_attempts interval_seconds E st d (U : pyval) :
  3 ≤ max_attempts →
  0 ≤ interval_seconds →
  reported_status (net E (calls st)) = Some (PStr "running") →
  reported_status (net E (calls st + 1)) = Some (PStr "running") →
  json_of_reply (net E (calls st + 2)) = Some (PDict d) →
  dict_lookup "status" d = Some (PStr "succeeded") →
  dict_lookup "url" d = Some U →
  let q := status_query self E export_id in
  let polls := [q; Sleep interval_seconds; q; Sleep interval_seconds; q] in
  poll_for_completion self export_id max_attempts interval_seconds E st
  = (Ok U, advance 3 polls st)
  ∧ count is_query polls = 3%nat
  ∧ count is_delay polls = 2%nat.
Proof.
  intros Hmax Hi H0 H1 H2 Hs Hu q polls. split; [| now split].
  unfold poll_for_completion.
  rewrite seqZ_cons by lia. rewrite poll_loop_running; [| | exact Hi].
  2: { exact H0. }
  rewrite seqZ_cons by lia. rewrite poll_loop_running; [| | exact Hi].
  2: { exact H1. }
  rewrite seqZ_cons by lia.
  rewrite advance_advance.
  erewrite poll_loop_return.
  2: { eapply poll_attempt_succeeded; [| exact Hs].
       apply check_export_status_ok. simpl.
       replace (calls st + (1 + 1))%nat with (calls st + 2)%nat by lia.
       exact H2. }
  rewrite Hu. simpl. now rewrite advance_advance.
Qed.

Lemma poll_returns_url_on_third_query_sample :
  let E := scripted [status_reply "running"; status_reply "running";
                     succeeded_reply "https://x/y.zip"] 1000 in
  let q := status_query sample_exporter E (PStr "abc123") in
  poll_for_completion sample_exporter (PStr "abc123") 60 5 E fresh
  = (Ok (PStr "https://x/y.zip"), advance 3 [q; Sleep 5; q; Sleep 5; q] fresh)
  ∧ count is_query [q; Sleep 5; q; Sleep 5; q] = 3%nat
  ∧ count is_delay [q; Sleep 5; q; Sleep 5; q] = 2%nat.
Proof.
  intros E q.
  apply (poll_returns_url_on_third_query sample_exporter (PStr "abc123") 60 5 E fresh
           [("status", PStr "succeeded"); ("url", PStr "https://x/y.zip")]
           (PStr "https://x/y.zip")); try reflexivity; lia.
Defined.

Lemma poll_from_unfold self export_id max_attempts interval_seconds attempt E st :
  attempt ≤ max_attempts →
  poll_from self export_id max_attempts interval_seconds attempt E st
  = match poll_attempt self export_id max_attempts interval_seconds attempt E st with
    | (Ok (Some url), st') => (Ok url, st')
    | (Ok None, st') =>
        poll_from self export_id max_attempts interval_seconds (attempt + 1) E st'
    | (Raise e, st') => (Raise e, st')
    end.
Proof.
  intros Hle. unfold poll_from. rewrite seqZ_cons by lia.
  replace (Z.pred (max_attempts - attempt + 1))
    with (max_attempts - (attempt + 1) + 1) by lia.
  replace (Z.succ attempt) with (attempt + 1) by lia.
  simpl. unfold mbind, M_bind.
  now destruct (poll_attempt _ _ _ _ _ E st) as [[[url |] | e] st'].
Qed.

(** A [failed] status on a turn before the last does not end the poll. *)
Lemma poll_from_failed_retry self export_id max_attempts interval_seconds attempt E st :
  reported_status (net E (calls st)) = Some (PStr "failed") →
  attempt < max_attempts →
  0 ≤ interval_seconds →
  poll_from self export_id max_attempts interval_seconds attempt E st
  = poll_from self export_id max_attempts interval_seconds (attempt + 1) E
      (advance 1 [status_query self E export_id; Sleep interval_seconds] st).
Proof.
  intros Hr Hlt Hi. apply reported_status_dict in Hr as (d & Hj & Hs).
  apply (check_export_status_ok self export_id) in Hj.
  rewrite poll_from_unfold by lia.
  erewrite poll_attempt_failed_retry; eauto; [| lia].
  now rewrite advance_advance.
Qed.

(** On the last turn it does. *)
Lemma poll_from_failed_last self export_id max_attempts interval_seconds E st :
  reported_status (net E (calls st)) = Some (PStr "failed") →
  poll_from self export_id max_attempts interval_seconds max_attempts E st
  = (Raise ExportFailed, advance 1 [status_query self E export_id] st).
Proof.
  intros Hr. apply reported_status_dict in Hr as (d & Hj & Hs).
  apply (check_export_status_ok self export_id) in Hj.
  rewrite poll_from_unfold by lia.
  erewrite poll_attempt_failed_last; eauto.
Qed.

(** C1. With a budget of 2, a first status response [failed] does not
    stop the poller: it delays, queries again, and here returns the URL
    that the second response carries. *)
Theorem failed_status_is_retried :
  let E := scripted [status_reply "failed"; succeeded_reply "https://x/y.zip"] 1000 in
  let q := status_query sample_exporter E (PStr "abc123") in
  poll_for_completion sample_exporter (PStr "abc123") 2 5 E fresh
  = (Ok (PStr "https://x/y.zip"), advance 2 [q; Sleep 5; q] fresh).
Proof. vm_compute. reflexivity. Qed.



(** ** The downloader *)

Lemma set_files_same st : set_files (files st) st = st.
Proof. now destruct st. Qed.

Lemma set_files_twice fs fs' st : set_files fs' (set_files fs st) = set_files fs' st.
Proof. reflexivity. Qed.

(** Writing the chunks [pre], which fit, appends them to the file. *)
Lemma write_chunks_fit filename rest broken E (pre : list (list byte)) :
  ∀ (old : list byte) st,
    files st !! filename = Some old →
    (N.of_nat (List.length old + List.length (concat pre)) ≤ max_file_size E)%N →
    write_chunks filename (pre ++ rest) broken E st
    = write_chunks filename rest broken E
        (set_files (<[filename := (old ++ concat pre)%list]> (files st)) st).
Proof.
  induction pre as [| chunk pre IH]; intros old st Hold Hfit.
  - simpl. rewrite app_nil_r, insert_id by exact Hold. now rewrite set_files_same.
  - simpl in Hfit. rewrite length_app in Hfit.
    change (write_chunks filename ((chunk :: pre) ++ rest) broken E st)
      with ((match chunk with
              | [] => mret tt
              | _ :: _ => file_write filename chunk
              end ≫= λ _, write_chunks filename (pre ++ rest) broken) E st).
    destruct chunk as [| b chunk].
    + unfold mbind, M_bind, mret, M_ret. simpl. now apply IH.
    + unfold mbind, M_bind, file_write. rewrite Hold. simpl default.
      destruct (N.leb_spec (N.of_nat (List.length old + List.length (b :: chunk)))
                  (max_file_size E)) as [_ | Hover]; [| lia].
      rewrite (IH (old ++ b :: chunk)%list).
      * simpl. rewrite set_files_twice, insert_insert_eq.
        now rewrite <- app_assoc.
      * simpl. apply lookup_insert_eq.
      * rewrite length_app. lia.
Qed.

(** The only event of a download is its request. *)
Lemma write_chunks_trace filename broken E (chunks : list (list byte)) :
  ∀ st, let st' := snd (write_chunks filename chunks broken E st) in
        calls st' = calls st ∧ trace st' = trace st.
Proof.
  induction chunks as [| chunk chunks IH]; intros st; simpl.
  - now destruct broken.
  - destruct chunk as [| b chunk]; unfold mbind, M_bind, mret, M_ret.
    + apply IH.
    + unfold file_write.
      destruct (_ <=? _)%N; [| easy].
      specialize (IH (set_files
        (<[filename := (default [] (files st !! filename) ++ b :: chunk)%list]> (files st))
        st)).
      apply IH.
Qed.

(** The [except] block of [download_file] leaves no file at [filename]
    and raises the exception again. *)
Lemma download_cleanup {A} filename e E st :
  (present ← os_path_exists filename;
   _ ← (if present : bool then os_remove filename else mret tt);
   (raise e : M A)) E st
  = (Raise e, set_files (delete filename (files st)) st).
Proof.
  unfold os_path_exists, os_remove, mbind, M_bind, mret, M_ret, raise.
  destruct (files st !! filename) eqn:Hf.
  - rewrite bool_decide_eq_true_2 by eauto. now rewrite Hf.
  - rewrite bool_decide_eq_false_2 by (intros [? ?]; discriminate).
    now rewrite delete_id, set_files_same.
Qed.

Lemma download_file_unfold self url filename E st :
  download_file self url filename E st
  = match download_try url filename E st with
    | (Ok name, st') => (Ok name, st')
    | (Raise e, st') =>
        if is_RequestException e
        then (Raise e, set_files (delete filename (files st')) st')
        else (Raise e, st')
    end.
Proof.
  unfold download_file, try_except. fold (download_try url filename).
  destruct (download_try url filename E st) as [[name | e] st']; [reflexivity |].
  destruct (is_RequestException e); [| reflexivity].
  apply download_cleanup.
Qed.

Lemma download_try_trace url filename E st :
  let st' := snd (download_try url filename E st) in
  calls st' = S (calls st) ∧ trace st' = (trace st ++ [HttpGet url true 300])%list.
Proof.
  unfold download_try, requests_get, network_call, raise_for_status,
    open_wb, mbind, M_bind, mret, M_ret, raise.
  destruct (net E (calls st)) as [detail | r]; simpl; [easy |].
  destruct (http_error (status_code r)); simpl; [easy |].
  destruct (can_open E filename); simpl; [| easy].
  match goal with
  | |- context [write_chunks ?f ?c ?b ?E ?s] =>
      pose proof (write_chunks_trace f b E c s) as Hw;
      destruct (write_chunks f c b E s) as [[[] | e] st2]
  end; simpl in *; easy.
Qed.

Lemma download_file_trace self url filename E st :
  let st' := snd (download_file self url filename E st) in
  calls st' = S (calls st) ∧ trace st' = (trace st ++ [HttpGet url true 300])%list.
Proof.
  rewrite download_file_unfold.
  pose proof (download_try_trace url filename E st) as Ht.
  destruct (download_try url filename E st) as [[name | e] st']; [exact Ht |].
  now destruct (is_RequestException e).
Qed.

Lemma download_try_opened url filename E st r :
  net E (calls st) = Responded r →
  http_error (status_code r) = false →
  can_open E filename = true →
  download_try url filename E st
  = match write_chunks filename (content r) (stream_error r) E (opened url filename st) with
    | (Ok _, st') => (Ok filename, st')
    | (Raise e, st') => (Raise e, st')
    end.
Proof.
  intros Hn Hc Ho.
  unfold download_try, requests_get, network_call, raise_for_status, open_wb,
    mbind, M_bind, mret, M_ret, opened, advance.
  rewrite Hn, Hc. simpl. rewrite Ho, Nat.add_1_r. reflexivity.
Qed.

(** The three ways the transport fails: no response, an error status, a
    transfer that breaks. Each reaches the caller as a
    [RequestException]. *)
Lemma download_file_no_response self url filename E st detail :
  net E (calls st) = ConnectionFailed detail →
  download_file self url filename E st
  = (Raise (RequestException detail),
     set_files (delete filename (files st)) (advance 1 [HttpGet url true 300] st)).
Proof.
  intros Hn. rewrite download_file_unfold.
  unfold download_try, requests_get, network_call, mbind, M_bind, advance.
  rewrite Hn, Nat.add_1_r. reflexivity.
Qed.

Lemma download_file_error_status self url filename E st r :
  net E (calls st) = Responded r →
  http_error (status_code r) = true →
  download_file self url filename E st
  = (Raise (RequestException ("HTTPError " ++ pretty (status_code r))),
     set_files (delete filename (files st)) (advance 1 [HttpGet url true 300] st)).
Proof.
  intros Hn Hc. rewrite download_file_unfold.
  unfold download_try, requests_get, network_call, raise_for_status,
    mbind, M_bind, advance.
  rewrite Hn, Hc, Nat.add_1_r. reflexivity.
Qed.

Lemma download_file_broken_transfer self url filename E st r detail :
  net E (calls st) = Responded r →
  http_error (status_code r) = false →
  can_open E filename = true →
  (N.of_nat (List.length (concat (content r))) ≤ max_file_size E)%N →
  stream_error r = Some detail →
  download_file self url filename E st
  = (Raise (RequestException detail),
     set_files (delete filename (files st)) (advance 1 [HttpGet url true 300] st)).
Proof.
  intros Hn Hc Ho Hfit Hb. rewrite download_file_unfold.
  rewrite (download_try_opened _ _ _ _ _ Hn Hc Ho).
  rewrite <- (app_nil_r (content r)) at 1.
  rewrite (write_chunks_fit _ _ _ _ _ []).
  - simpl. rewrite Hb. simpl. unfold opened. simpl.
    now rewrite !set_files_twice, insert_insert_eq, delete_insert_eq.
  - unfold opened. simpl. apply lookup_insert_eq.
  - exact Hfit.
Qed.

(** A download that succeeds has written the whole content. *)
Lemma download_file_complete self url filename E st r :
  net E (calls st) = Responded r →
  http_error (status_code r) = false →
  can_open E filename = true →
  (N.of_nat (List.length (concat (content r))) ≤ max_file_size E)%N →
  stream_error r = None →
  download_file self url filename E st
  = (Ok filename,
     set_files (<[filename := concat (content r)]> (files st))
       (advance 1 [HttpGet url true 300] st)).
Proof.
  intros Hn Hc Ho Hfit Hb. rewrite download_file_unfold.
  rewrite (download_try_opened _ _ _ _ _ Hn Hc Ho).
  rewrite <- (app_nil_r (content r)) at 1.
  rewrite (write_chunks_fit _ _ _ _ _ []).
  - simpl. rewrite Hb. simpl. unfold opened. simpl.
    now rewrite !set_files_twice, insert_insert_eq.
  - unfold opened. simpl. apply lookup_insert_eq.
  - exact Hfit.
Qed.

(** Whenever a [RequestException] leaves [download_file], no file is left
    at the destination. *)
Theorem failed_download_leaves_no_file self url filename E st e st' :
  download_file self url filename E st = (Raise e, st') →
  is_RequestException e = true →
  files st' !! filename = None.
Proof.
  rewrite download_file_unfold.
  destruct (download_try url filename E st) as [[name | e0] st0]; [discriminate |].
  destruct (is_RequestException e0) eqn:Hc0.
  - intros [= <- <-] _. simpl. apply lookup_delete_eq.
  - intros [= <- <-] Hc. congruence.
Qed.

Lemma failed_download_leaves_no_file_sample :
  let E := scripted [broken_download] 1000 in
  download_file sample_exporter (PStr "https://x/y.zip") "transactions_abc123.zip" E fresh
  = (Raise (RequestException "IncompleteRead"),
     advance 1 [HttpGet (PStr "https://x/y.zip") true 300] fresh)
  ∧ files (advance 1 [HttpGet (PStr "https://x/y.zip") true 300] fresh)
      !! "transactions_abc123.zip" = None.
Proof.
  intros E.
  assert (H : download_file sample_exporter (PStr "https://x/y.zip")
                "transactions_abc123.zip" E fresh
              = (Raise (RequestException "IncompleteRead"),
                 advance 1 [HttpGet (PStr "https://x/y.zip") true 300] fresh))
    by (vm_compute; reflexivity).
  split; [exact H |].
  exact (failed_download_leaves_no_file _ _ _ _ _ _ _ H eq_refl).
Defined.

(** C4, as the code has it. Provided the local file system takes the
    file (the destination can be opened and the body received fits),
    the download is whole or absent. If the transport fails, by giving
    no response, by a 4xx or 5xx status, or by a transfer that breaks
    after zero or more chunks were written, then [download_file] raises
    that [RequestException], having made its one request, and no file
    is left at the destination, not even one that was there before. If
    the transport does not fail, [download_file] returns the file name
    and the destination holds the whole body. *)
Theorem download_whole_or_absent self url filename E st :
  (∀ r, net E (calls st) = Responded r →
        http_error (status_code r) = false →
        can_open E filename = true
        ∧ (N.of_nat (List.length (concat (content r))) ≤ max_file_size E)%N) →
  (∀ detail,
     transport_failure (net E (calls st)) = Some detail →
     download_file self url filename E st
     = (Raise (RequestException detail),
        set_files (delete filename (files st)) (advance 1 [HttpGet url true 300] st))
     ∧ files (snd (download_file self url filename E st)) !! filename = None)
  ∧ (transport_failure (net E (calls st)) = None →
     ∃ r, net E (calls st) = Responded r
          ∧ download_file self url filename E st
            = (Ok filename,
               set_files (<[filename := concat (content r)]> (files st))
                 (advance 1 [HttpGet url true 300] st))
          ∧ files (snd (download_file self url filename E st)) !! filename
            = Some (concat (content r))).
Proof.
  intros Hlocal. unfold transport_failure.
  destruct (net E (calls st)) as [detail0 | r] eqn:Hn.
  - split; [| discriminate]. intros detail [= <-].
    rewrite (download_file_no_response _ _ _ _ _ _ Hn).
    split; [reflexivity |]. simpl. apply lookup_delete_eq.
  - destruct (http_error (status_code r)) eqn:Hc.
    + split; [| discriminate]. intros detail [= <-].
      rewrite (download_file_error_status _ _ _ _ _ _ Hn Hc).
      split; [reflexivity |]. simpl. apply lookup_delete_eq.
    + destruct (Hlocal r eq_refl Hc) as [Ho Hfit]. split.
      * intros detail Hb.
        rewrite (download_file_broken_transfer _ _ _ _ _ _ _ Hn Hc Ho Hfit Hb).
        split; [reflexivity |]. simpl. apply lookup_delete_eq.
      * intros Hb. exists r. split; [reflexivity |].
        rewrite (download_file_complete _ _ _ _ _ _ Hn Hc Ho Hfit Hb).
        split; [reflexivity |]. simpl. apply lookup_insert_eq.
Qed.

(** A transfer that breaks after two chunks were written, onto a
    destination that held a file already: nothing is left. *)
Lemma download_whole_or_absent_sample :
  let E := scripted [broken_download] 1000 in
  let st := set_files (<["transactions_abc123.zip" := [x00]]> ∅) fresh in
  let url := PStr "https://x/y.zip" in
  (∀ detail,
     transport_failure (net E (calls st)) = Some detail →
     download_file sample_exporter url "transactions_abc123.zip" E st
     = (Raise (RequestException detail),
        set_files (delete "transactions_abc123.zip" (files st))
          (advance 1 [HttpGet url true 300] st))
     ∧ files (snd (download_file sample_exporter url "transactions_abc123.zip" E st))
         !! "transactions_abc123.zip" = None)
  ∧ (transport_failure (net E (calls st)) = None →
     ∃ r, net E (calls st) = Responded r
          ∧ download_file sample_exporter url "transactions_abc123.zip" E st
            = (Ok "transactions_abc123.zip",
               set_files (<["transactions_abc123.zip" := concat (content r)]> (files st))
                 (advance 1 [HttpGet url true 300] st))
          ∧ files (snd (download_file sample_exporter url "transactions_abc123.zip"
                          E st)) !! "transactions_abc123.zip"
            = Some (concat (content r))).
Proof.
  intros E st url.
  apply (download_whole_or_absent sample_exporter url "transactions_abc123.zip" E st).
  intros r [= <-] _. split; [reflexivity | vm_compute; discriminate].
Defined.

(** The claim as the specification words it fails twice. A write that
    the file system refuses leaves a file that is neither whole nor
    absent: four of the six bytes served. And a status that is no
    success, 304, is no failure for [raise_for_status]: the download
    returns and the file exists. *)
Lemma download_not_always_whole_or_absent :
  (let E := scripted [oversized_download] 5 in
   let st' := snd (download_file sample_exporter (PStr "https://x/y.zip")
                     "transactions_abc123.zip" E fresh) in
   files st' !! "transactions_abc123.zip" ≠ None
   ∧ files st' !! "transactions_abc123.zip"
     ≠ Some [x50; x4b; x03; x04; x14; x00])
  ∧ (let E := scripted [not_modified] 1000 in
     let run := download_file sample_exporter (PStr "https://x/y.zip")
                  "transactions_abc123.zip" E fresh in
     fst run = Ok "transactions_abc123.zip"
     ∧ files (snd run) !! "transactions_abc123.zip" ≠ None).
Proof.
  split.
  - assert (H : files (snd (download_file sample_exporter (PStr "https://x/y.zip")
                              "transactions_abc123.zip" (scripted [oversized_download] 5)
                              fresh)) !! "transactions_abc123.zip"
                = Some [x50; x4b; x03; x04]) by (vm_compute; reflexivity).
    cbv zeta. rewrite H. split; discriminate.
  - assert (H : download_file sample_exporter (PStr "https://x/y.zip")
                  "transactions_abc123.zip" (scripted [not_modified] 1000) fresh
                = (Ok "transactions_abc123.zip",
                   set_files (<["transactions_abc123.zip" := []]> ∅)
                     (advance 1 [HttpGet (PStr "https://x/y.zip") true 300] fresh)))
      by (vm_compute; reflexivity).
    cbv zeta. rewrite H. split; [reflexivity |]. simpl.
    rewrite lookup_insert_eq. discriminate.
Qed.

(** C8. The cleanup is for transport failures only. When a write to the
    destination fails in the middle of a download (here: the chunk
    [chunk], after the chunks [pre] were written), the [OSError]
    propagates and the file stays, holding what was written before. *)
Theorem write_error_leaves_partial_file
    self url filename E st r (pre post : list (list byte)) (chunk : list byte) :
  net E (calls st) = Responded r →
  http_error (status_code r) = false →
  can_open E filename = true →
  content r = (pre ++ chunk :: post)%list →
  chunk ≠ [] →
  (N.of_nat (List.length (concat pre)) ≤ max_file_size E)%N →
  (max_file_size E < N.of_nat (List.length (concat pre) + List.length chunk))%N →
  download_file self url filename E st
  = (Raise (OSError "write"),
     set_files (<[filename := concat pre]> (files st))
       (advance 1 [HttpGet url true 300] st))
  ∧ files (snd (download_file self url filename E st)) !! filename
    = Some (concat pre).
Proof.
  intros Hn Hc Ho Hcontent Hne Hfit Hover.
  assert (Hrun : download_file self url filename E st
                 = (Raise (OSError "write"),
                    set_files (<[filename := concat pre]> (files st))
                      (advance 1 [HttpGet url true 300] st))).
  { rewrite download_file_unfold.
    rewrite (download_try_opened _ _ _ _ _ Hn Hc Ho), Hcontent.
    rewrite (write_chunks_fit _ _ _ _ _ []).
    - destruct chunk as [| b chunk]; [contradiction |].
      simpl. unfold mbind, M_bind, file_write. simpl.
      rewrite lookup_insert_eq. simpl default.
      simpl in Hover. apply N.leb_gt in Hover. simpl. rewrite Hover.
      unfold opened. now rewrite set_files_twice, insert_insert_eq.
    - unfold opened. simpl. apply lookup_insert_eq.
    - exact Hfit. }
  split; [exact Hrun |].
  rewrite Hrun. simpl. apply lookup_insert_eq.
Qed.

Lemma write_error_leaves_partial_file_sample :
  let E := scripted [oversized_download] 5 in
  let url := PStr "https://x/y.zip" in
  download_file sample_exporter url "transactions_abc123.zip" E fresh
  = (Raise (OSError "write"),
     set_files (<["transactions_abc123.zip" := [x50; x4b; x03; x04]]> ∅)
       (advance 1 [HttpGet url true 300] fresh))
  ∧ files (snd (download_file sample_exporter url "transactions_abc123.zip" E fresh))
      !! "transactions_abc123.zip"
    = Some [x50; x4b; x03; x04].
Proof.
  intros E url.
  apply (write_error_leaves_partial_file sample_exporter url "transactions_abc123.zip"
           E fresh
           {| status_code := 200; json_body := None;
              content := [[x50; x4b]; [x03; x04]; [x14; x00]];
              stream_error := None |}
           [[x50; x4b]; [x03; x04]] [] [x14; x00]);
    try reflexivity; try discriminate; vm_compute; intros; discriminate.
Defined.

(** ** What a computation leaves alone *)

Lemma is_RequestException_Exception e :
  is_RequestException e = true → is_Exception e = true.
Proof. now destruct e. Qed.

Section Frame.
Context {A B : Type}.

Lemma keeps_files_ret (a : A) : keeps_files (mret a).
Proof. now intros E st. Qed.

Lemma keeps_files_raise e : keeps_files (raise e : M A).
Proof. now intros E st. Qed.

Lemma keeps_files_bind (m : M A) (f : A → M B) :
  keeps_files m → (∀ a, keeps_files (f a)) → keeps_files (m ≫= f).
Proof.
  intros Hm Hf E st. unfold mbind, M_bind.
  specialize (Hm E st). destruct (m E st) as [[a | e] st1]; simpl in *.
  - now rewrite Hf.
  - exact Hm.
Qed.

Lemma keeps_files_try (body : M A) classes handler :
  keeps_files body → (∀ e, keeps_files (handler e)) →
  keeps_files (try_except body classes handler).
Proof.
  intros Hb Hh E st. unfold try_except.
  specialize (Hb E st). destruct (body E st) as [[a | e] st1]; simpl in *.
  - exact Hb.
  - destruct (classes e); simpl; [| exact Hb]. now rewrite Hh.
Qed.

Lemma no_exit_ret (a : A) : no_exit (mret a).
Proof. intros E st e st'. discriminate. Qed.

Lemma no_exit_raise e : is_Exception e = true → no_exit (raise e : M A).
Proof. intros He E st e' st' [= <- _]. exact He. Qed.

Lemma no_exit_bind (m : M A) (f : A → M B) :
  no_exit m → (∀ a, no_exit (f a)) → no_exit (m ≫= f).
Proof.
  intros Hm Hf E st e st'. unfold mbind, M_bind.
  destruct (m E st) as [[a | e1] st1] eqn:Hrun.
  - apply Hf.
  - intros [= <- _]. eapply Hm, Hrun.
Qed.

Lemma no_exit_try (body : M A) classes handler :
  no_exit body → (∀ e, classes e = true → no_exit (handler e)) →
  no_exit (try_except body classes handler).
Proof.
  intros Hb Hh E st e st'. unfold try_except.
  destruct (body E st) as [[a | e1] st1] eqn:Hrun; [discriminate |].
  destruct (classes e1) eqn:Hc.
  - now apply Hh.
  - intros [= <- _]. eapply Hb, Hrun.
Qed.
End Frame.

Lemma keeps_files_network_call ev : keeps_files (network_call ev).
Proof. intros E st. unfold network_call. now destruct (net E (calls st)). Qed.

Lemma no_exit_network_call ev : no_exit (network_call ev).
Proof.
  intros E st e st'. unfold network_call.
  destruct (net E (calls st)); [| discriminate]. now intros [= <- _].
Qed.

Lemma keeps_files_time_sleep seconds : keeps_files (time_sleep seconds).
Proof. intros E st. unfold time_sleep. now destruct (seconds <? 0). Qed.

Lemma no_exit_time_sleep seconds : no_exit (time_sleep seconds).
Proof.
  intros E st e st'. unfold time_sleep, log, raise.
  destruct (seconds <? 0); [| discriminate]. now intros [= <- _].
Qed.

Lemma keeps_files_fstr v : keeps_files (fstr v).
Proof. now intros E st. Qed.

Lemma no_exit_fstr v : no_exit (fstr v).
Proof. intros E st e st'. discriminate. Qed.

Lemma keeps_files_ask : keeps_files ask.
Proof. now intros E st. Qed.

Lemma no_exit_ask : no_exit ask.
Proof. intros E st e st'. discriminate. Qed.

Create HintDb frame.

#[local] Hint Resolve
  keeps_files_ret keeps_files_raise keeps_files_network_call keeps_files_time_sleep
  keeps_files_fstr keeps_files_ask
  no_exit_ret no_exit_network_call no_exit_time_sleep no_exit_fstr no_exit_ask
  is_RequestException_Exception : frame.

(** Walks through a computation built from binds, handlers and
    branches. *)
Ltac frame :=
  repeat first
    [ progress intros
    | solve [auto with frame]
    | solve [apply no_exit_raise; auto with frame]
    | apply keeps_files_bind | apply keeps_files_try
    | apply no_exit_bind | apply no_exit_try
    | match goal with
      | |- keeps_files (if ?b then _ else _) => destruct b
      | |- no_exit (if ?b then _ else _) => destruct b
      | |- keeps_files (match ?x with _ => _ end) => destruct x
      | |- no_exit (match ?x with _ => _ end) => destruct x
      end ].

Lemma keeps_files_initiate_export self : keeps_files (initiate_export self).
Proof.
  unfold initiate_export, requests_post, raise_for_status, response_json,
    py_in, py_getitem.
  frame.
Qed.

Lemma no_exit_initiate_export self : no_exit (initiate_export self).
Proof.
  unfold initiate_export, requests_post, raise_for_status, response_json,
    py_in, py_getitem.
  frame.
Qed.

Lemma keeps_files_check_export_status self export_id :
  keeps_files (check_export_status self export_id).
Proof.
  unfold check_export_status, requests_get, raise_for_status, response_json.
  frame.
Qed.

Lemma no_exit_check_export_status self export_id :
  no_exit (check_export_status self export_id).
Proof.
  unfold check_export_status, requests_get, raise_for_status, response_json.
  frame.
Qed.

#[local] Hint Resolve keeps_files_check_export_status no_exit_check_export_status : frame.

Lemma keeps_files_poll_attempt self export_id max_attempts interval_seconds attempt :
  keeps_files (poll_attempt self export_id max_attempts interval_seconds attempt).
Proof. unfold poll_attempt, py_get. frame. Qed.

Lemma no_exit_poll_attempt self export_id max_attempts interval_seconds attempt :
  no_exit (poll_attempt self export_id max_attempts interval_seconds attempt).
Proof. unfold poll_attempt, py_get. frame. Qed.

#[local] Hint Resolve keeps_files_poll_attempt no_exit_poll_attempt : frame.

Lemma keeps_files_poll_loop self export_id max_attempts interval_seconds attempts :
  keeps_files (poll_loop self export_id max_attempts interval_seconds attempts).
Proof. induction attempts as [| attempt rest IH]; simpl; frame. Qed.

Lemma no_exit_poll_loop self export_id max_attempts interval_seconds attempts :
  no_exit (poll_loop self export_id max_attempts interval_seconds attempts).
Proof. induction attempts as [| attempt rest IH]; simpl; frame. Qed.

Lemma keeps_files_poll_for_completion self export_id max_attempts interval_seconds :
  keeps_files (poll_for_completion self export_id max_attempts interval_seconds).
Proof. apply keeps_files_poll_loop. Qed.

Lemma no_exit_poll_for_completion self export_id max_attempts interval_seconds :
  no_exit (poll_for_completion self export_id max_attempts interval_seconds).
Proof. apply no_exit_poll_loop. Qed.

Lemma no_exit_open_wb filename : no_exit (open_wb filename).
Proof.
  intros E st e st'. unfold open_wb.
  destruct (can_open E filename); [discriminate |]. now intros [= <- _].
Qed.

Lemma no_exit_file_write filename chunk : no_exit (file_write filename chunk).
Proof.
  intros E st e st'. unfold file_write.
  destruct (_ <=? _)%N; [discriminate |]. now intros [= <- _].
Qed.

Lemma no_exit_os_path_exists filename : no_exit (os_path_exists filename).
Proof. intros E st e st'. discriminate. Qed.

Lemma no_exit_os_remove filename : no_exit (os_remove filename).
Proof.
  intros E st e st'. unfold os_remove.
  destruct (files st !! filename); [discriminate |]. now intros [= <- _].
Qed.

#[local] Hint Resolve no_exit_open_wb no_exit_file_write no_exit_os_path_exists
  no_exit_os_remove : frame.

Lemma no_exit_write_chunks filename chunks broken :
  no_exit (write_chunks filename chunks broken).
Proof. induction chunks as [| chunk rest IH]; simpl; frame. Qed.

#[local] Hint Resolve no_exit_write_chunks : frame.

Lemma no_exit_download_file self url filename :
  no_exit (download_file self url filename).
Proof. unfold download_file, requests_get, raise_for_status. frame. Qed.

(** Once open, the destination stays in place while chunks are written. *)
Lemma write_chunks_keeps_file filename broken E (chunks : list (list byte)) :
  ∀ st, is_Some (files st !! filename) →
        is_Some (files (snd (write_chunks filename chunks broken E st)) !! filename).
Proof.
  induction chunks as [| chunk rest IH]; intros st Hf; simpl.
  - now destruct broken.
  - destruct chunk as [| b chunk]; unfold mbind, M_bind, mret, M_ret.
    + now apply IH.
    + unfold file_write. destruct (_ <=? _)%N; [| exact Hf].
      apply IH. simpl. rewrite lookup_insert_eq. eauto.
Qed.

(** A download that returns, returns the file name, and the file is
    there. *)
Lemma download_file_ok self url filename E st name st' :
  download_file self url filename E st = (Ok name, st') →
  name = filename ∧ is_Some (files st' !! filename).
Proof.
  rewrite download_file_unfold.
  destruct (download_try url filename E st) as [[name0 | e] st0] eqn:Htry.
  2: { destruct (is_RequestException e); discriminate. }
  intros [= <- <-]. revert Htry.
  unfold download_try, requests_get, network_call, raise_for_status, open_wb,
    mbind, M_bind, mret, M_ret, raise.
  destruct (net E (calls st)) as [detail | r]; [discriminate |].
  destruct (http_error (status_code r)); [discriminate |].
  destruct (can_open E filename); [| discriminate].
  match goal with
  | |- context [write_chunks ?f ?c ?b ?E ?s] =>
      pose proof (write_chunks_keeps_file f b E c s) as Hw;
      destruct (write_chunks f c b E s) as [[[] | e] st2]
  end; [| discriminate].
  intros [= <- <-]. split; [reflexivity |].
  apply Hw. simpl. rewrite lookup_insert_eq. eauto.
Qed.

(** ** The orchestrator *)

(** [run], step by step: every exception of a step is turned into
    [sys.exit(1)]. *)
Lemma run_unfold self E st :
  run self E st
  = match initiate_export self E st with
    | (Raise _, st1) => (Raise (SystemExit 1), st1)
    | (Ok export_id, st1) =>
        match poll_for_completion self export_id 60 5 E st1 with
        | (Raise _, st2) => (Raise (SystemExit 1), st2)
        | (Ok url, st2) =>
            match download_file self url (output_name E export_id) E st2 with
            | (Raise _, st3) => (Raise (SystemExit 1), st3)
            | (Ok _, st3) => (Ok tt, st3)
            end
        end
    end.
Proof.
  unfold run, try_except, mbind, M_bind, ask, mret, M_ret, sys_exit, raise.
  destruct (initiate_export self E st) as [[export_id | e] st1] eqn:H1.
  2: { now rewrite (no_exit_initiate_export _ _ _ _ _ H1). }
  destruct (poll_for_completion self export_id 60 5 E st1) as [[url | e] st2] eqn:H2.
  2: { now rewrite (no_exit_poll_for_completion _ _ _ _ _ _ _ _ H2). }
  destruct (download_file self url (output_name E export_id) E st2)
    as [[name | e] st3] eqn:H3; [reflexivity |].
  now rewrite (no_exit_download_file _ _ _ _ _ _ _ H3).
Qed.

Lemma main_unfold E st :
  main E st
  = match run (the_exporter E) E st with
    | (Ok _, st') => (0, st')
    | (Raise _, st') => (1, st')
    end.
Proof.
  unfold main, TransactionExporter_init, mbind, M_bind, ask, mret, M_ret.
  fold (the_exporter E). rewrite run_unfold.
  destruct (initiate_export _ E st) as [[export_id | e] st1]; [| reflexivity].
  destruct (poll_for_completion _ export_id 60 5 E st1) as [[url | e] st2];
    [| reflexivity].
  now destruct (download_file _ url _ E st2) as [[name | e] st3].
Qed.

Section Main.
Variables (E : env) (st : state).

Lemma main_request_fails e st1 :
  initiate_export (the_exporter E) E st = (Raise e, st1) →
  main E st = (1, st1).
Proof. intros H1. now rewrite main_unfold, run_unfold, H1. Qed.

Lemma main_poll_fails export_id st1 e st2 :
  initiate_export (the_exporter E) E st = (Ok export_id, st1) →
  poll_for_completion (the_exporter E) export_id 60 5 E st1 = (Raise e, st2) →
  main E st = (1, st2).
Proof. intros H1 H2. now rewrite main_unfold, run_unfold, H1, H2. Qed.

Lemma main_download_fails export_id st1 url st2 e st3 :
  initiate_export (the_exporter E) E st = (Ok export_id, st1) →
  poll_for_completion (the_exporter E) export_id 60 5 E st1 = (Ok url, st2) →
  download_file (the_exporter E) url (output_name E export_id) E st2
  = (Raise e, st3) →
  main E st = (1, st3).
Proof. intros H1 H2 H3. now rewrite main_unfold, run_unfold, H1, H2, H3. Qed.

Lemma main_succeeds export_id st1 url st2 name st3 :
  initiate_export (the_exporter E) E st = (Ok export_id, st1) →
  poll_for_completion (the_exporter E) export_id 60 5 E st1 = (Ok url, st2) →
  download_file (the_exporter E) url (output_name E export_id) E st2
  = (Ok name, st3) →
  main E st = (0, st3).
Proof. intros H1 H2 H3. now rewrite main_unfold, run_unfold, H1, H2, H3. Qed.
End Main.

(** C7. The process exits with 0 exactly when the request, the poll and
    the download all succeed, and then the file
    [transactions_<exportId>.zip] exists; it exits with 1 when the
    request fails, when the poll fails (timeout or failed export), and
    when the download fails. *)
Theorem exit_code_reflects_the_three_steps E st :
  (fst (main E st) = 0 ↔
     ∃ export_id st1 url st2 st3,
       initiate_export (the_exporter E) E st = (Ok export_id, st1)
       ∧ poll_for_completion (the_exporter E) export_id 60 5 E st1 = (Ok url, st2)
       ∧ download_file (the_exporter E) url (output_name E export_id) E st2
         = (Ok (output_name E export_id), st3)
       ∧ snd (main E st) = st3
       ∧ is_Some (files st3 !! output_name E export_id))
  ∧ (∀ e st1,
       initiate_export (the_exporter E) E st = (Raise e, st1) →
       main E st = (1, st1))
  ∧ (∀ export_id st1 e st2,
       initiate_export (the_exporter E) E st = (Ok export_id, st1) →
       poll_for_completion (the_exporter E) export_id 60 5 E st1 = (Raise e, st2) →
       main E st = (1, st2))
  ∧ (∀ export_id st1 url st2 e st3,
       initiate_export (the_exporter E) E st = (Ok export_id, st1) →
       poll_for_completion (the_exporter E) export_id 60 5 E st1 = (Ok url, st2) →
       download_file (the_exporter E) url (output_name E export_id) E st2
       = (Raise e, st3) →
       main E st = (1, st3))
  ∧ (fst (main E st) = 0 ∨ fst (main E st) = 1)
  ∧ (∀ s, output_name E (PStr s) = "transactions_" ++ s ++ ".zip").
Proof.
  split; [| split; [| split; [| split; [| split]]]].
  - split.
    + intros H0.
      destruct (initiate_export (the_exporter E) E st) as [[export_id | e] st1] eqn:H1.
      2: { rewrite (main_request_fails _ _ _ _ H1) in H0. discriminate. }
      destruct (poll_for_completion (the_exporter E) export_id 60 5 E st1)
        as [[url | e] st2] eqn:H2.
      2: { rewrite (main_poll_fails _ _ _ _ _ _ H1 H2) in H0. discriminate. }
      destruct (download_file (the_exporter E) url (output_name E export_id) E st2)
        as [[name | e] st3] eqn:H3.
      2: { rewrite (main_download_fails _ _ _ _ _ _ _ _ H1 H2 H3) in H0.
           discriminate. }
      destruct (download_file_ok _ _ _ _ _ _ _ H3) as [-> Hfile].
      exists export_id, st1, url, st2, st3.
      rewrite (main_succeeds _ _ _ _ _ _ _ _ H1 H2 H3). auto.
    + intros (export_id & st1 & url & st2 & st3 & H1 & H2 & H3 & _).
      now rewrite (main_succeeds _ _ _ _ _ _ _ _ H1 H2 H3).
  - apply main_request_fails.
  - apply main_poll_fails.
  - apply main_download_fails.
  - rewrite main_unfold. destruct (run (the_exporter E) E st) as [[[] | e] st']; auto.
  - reflexivity.
Qed.

(** A creation response that decodes to a dict with an [exportId] gives
    that identifier. *)
Lemma initiate_export_ok self E st d export_id :
  json_of_reply (net E (calls st)) = Some (PDict d) →
  dict_lookup "exportId" d = Some export_id →
  initiate_export self E st = (Ok export_id, advance 1 [creation_request self] st).
Proof.
  intros Hj Hd.
  unfold initiate_export, requests_post, network_call, raise_for_status,
    response_json, try_except, mbind, M_bind, advance, creation_request.
  rewrite Nat.add_1_r.
  destruct (net E (calls st)) as [detail | r]; simpl in Hj; [discriminate |].
  destruct (http_error (status_code r)); [discriminate |].
  rewrite Hj. simpl. now rewrite Hd.
Qed.

(** C5. When the creation response is an HTTP success whose JSON object
    has no [exportId], [initiate_export] raises its
    "Failed to initiate export" exception ([RequestFailed]); [run] and the
    process end with exit code 1, and the creation request is the only
    network call made: no status query, no download. *)
Theorem missing_export_id_stops_the_run self E st d :
  json_of_reply (net E (calls st)) = Some (PDict d) →
  dict_lookup "exportId" d = None →
  initiate_export self E st
  = (Raise (RequestFailed E (PDict d)), advance 1 [creation_request self] st)
  ∧ run self E st = (Raise (SystemExit 1), advance 1 [creation_request self] st)
  ∧ main E st = (1, advance 1 [creation_request (the_exporter E)] st)
  ∧ count is_network [creation_request self] = 1%nat.
Proof.
  intros Hj Hd.
  assert (Hinit : ∀ self', initiate_export self' E st
            = (Raise (RequestFailed E (PDict d)), advance 1 [creation_request self'] st)).
  { intros self'.
    unfold initiate_export, requests_post, network_call, raise_for_status,
      response_json, try_except, mbind, M_bind, advance, creation_request.
    rewrite Nat.add_1_r.
    destruct (net E (calls st)) as [detail | r]; simpl in Hj; [discriminate |].
    destruct (http_error (status_code r)); [discriminate |].
    rewrite Hj. simpl. now rewrite Hd. }
  split; [apply Hinit |]. split; [| split; [| reflexivity]].
  - now rewrite run_unfold, Hinit.
  - now rewrite main_unfold, run_unfold, Hinit.
Qed.

Lemma missing_export_id_stops_the_run_sample :
  let E := scripted [json_reply (PDict [("error", PStr "rate limited")]);
                     succeeded_reply "https://x/y.zip"] 1000 in
  initiate_export sample_exporter E fresh
  = (Raise (RequestFailed E (PDict [("error", PStr "rate limited")])),
     advance 1 [creation_request sample_exporter] fresh)
  ∧ run sample_exporter E fresh
    = (Raise (SystemExit 1), advance 1 [creation_request sample_exporter] fresh)
  ∧ main E fresh = (1, advance 1 [creation_request (the_exporter E)] fresh)
  ∧ count is_network [creation_request sample_exporter] = 1%nat.
Proof.
  intros E.
  apply (missing_export_id_stops_the_run sample_exporter E fresh
           [("error", PStr "rate limited")]); reflexivity.
Defined.

(** A [succeeded] status ends the poll on any turn, with whatever
    [status.get("url")] gives. *)
Lemma poll_from_succeeded self export_id max_attempts interval_seconds k E st d :
  k ≤ max_attempts →
  json_of_reply (net E (calls st)) = Some (PDict d) →
  dict_lookup "status" d = Some (PStr "succeeded") →
  poll_from self export_id max_attempts interval_seconds k E st
  = (Ok (default PNone (dict_lookup "url" d)),
     advance 1 [status_query self E export_id] st).
Proof.
  intros Hk Hj Hs. apply (check_export_status_ok self export_id) in Hj.
  rewrite poll_from_unfold by exact Hk.
  erewrite poll_attempt_succeeded; eauto.
Qed.

(** C9. A [succeeded] status without a [url] field ends the poll
    successfully, on whichever turn it comes, with [None] as the URL; and
    [run] then calls [download_file] with that [None]: its next request is
    the download request for [None]. *)
Theorem succeeded_without_url_downloads_none self export_id E st st1 d :
  initiate_export self E st = (Ok export_id, st1) →
  json_of_reply (net E (calls st1)) = Some (PDict d) →
  dict_lookup "status" d = Some (PStr "succeeded") →
  dict_lookup "url" d = None →
  (∀ max_attempts interval_seconds k,
     k ≤ max_attempts →
     poll_from self export_id max_attempts interval_seconds k E st1
     = (Ok PNone, advance 1 [status_query self E export_id] st1))
  ∧ poll_for_completion self export_id 60 5 E st1
    = (Ok PNone, advance 1 [status_query self E export_id] st1)
  ∧ run self E st
    = match download_file self PNone (output_name E export_id) E
              (advance 1 [status_query self E export_id] st1) with
      | (Ok _, st') => (Ok tt, st')
      | (Raise _, st') => (Raise (SystemExit 1), st')
      end
  ∧ trace (snd (run self E st))
    = (trace st1 ++ [status_query self E export_id; HttpGet PNone true 300])%list.
Proof.
  intros Hinit Hj Hs Hu.
  assert (Hfrom : ∀ max_attempts interval_seconds k,
     k ≤ max_attempts →
     poll_from self export_id max_attempts interval_seconds k E st1
     = (Ok PNone, advance 1 [status_query self E export_id] st1)).
  { intros max_attempts interval_seconds k Hk.
    rewrite (poll_from_succeeded _ _ _ _ _ _ _ d Hk Hj Hs). now rewrite Hu. }
  assert (Hpoll : poll_for_completion self export_id 60 5 E st1
                  = (Ok PNone, advance 1 [status_query self E export_id] st1)).
  { rewrite poll_for_completion_from_1. apply Hfrom. lia. }
  assert (Hrun : run self E st
    = match download_file self PNone (output_name E export_id) E
              (advance 1 [status_query self E export_id] st1) with
      | (Ok _, st') => (Ok tt, st')
      | (Raise _, st') => (Raise (SystemExit 1), st')
      end).
  { rewrite run_unfold, Hinit, Hpoll.
    now destruct (download_file _ _ _ _ _) as [[name | e] st']. }
  repeat split; auto.
  rewrite Hrun.
  pose proof (download_file_trace self PNone (output_name E export_id) E
                (advance 1 [status_query self E export_id] st1)) as [_ Ht].
  destruct (download_file _ _ _ _ _) as [[name | e] st']; simpl in *;
    rewrite Ht; now rewrite <- app_assoc.
Qed.

Lemma succeeded_without_url_downloads_none_sample :
  let E := scripted [json_reply (PDict [("exportId", PStr "abc123")]);
                     status_reply "succeeded"] 1000 in
  let st1 := advance 1 [creation_request sample_exporter] fresh in
  let q := status_query sample_exporter E (PStr "abc123") in
  (∀ max_attempts interval_seconds k,
     k ≤ max_attempts →
     poll_from sample_exporter (PStr "abc123") max_attempts interval_seconds k E st1
     = (Ok PNone, advance 1 [q] st1))
  ∧ poll_for_completion sample_exporter (PStr "abc123") 60 5 E st1
    = (Ok PNone, advance 1 [q] st1)
  ∧ run sample_exporter E fresh
    = match download_file sample_exporter PNone (output_name E (PStr "abc123")) E
              (advance 1 [q] st1) with
      | (Ok _, st') => (Ok tt, st')
      | (Raise _, st') => (Raise (SystemExit 1), st')
      end
  ∧ trace (snd (run sample_exporter E fresh))
    = (trace st1 ++ [q; HttpGet PNone true 300])%list.
Proof.
  intros E st1 q.
  apply (succeeded_without_url_downloads_none sample_exporter (PStr "abc123") E fresh st1
           [("status", PStr "succeeded")]); reflexivity.
Defined.

(** ** Nothing is written before the download *)

(** C10. A run that fails during job creation or polling ends with
    [sys.exit(1)] and leaves the files exactly as they were: none is
    created, none is modified, so no output file has appeared. *)
Theorem failure_before_download_keeps_files self E st :
  fails_before_download self E st = true →
  fst (run self E st) = Raise (SystemExit 1)
  ∧ files (snd (run self E st)) = files st
  ∧ (∀ path, files st !! path = None → files (snd (run self E st)) !! path = None).
Proof.
  unfold fails_before_download. intros Hfail.
  assert (Hrun : fst (run self E st) = Raise (SystemExit 1)
                 ∧ files (snd (run self E st)) = files st).
  { rewrite run_unfold.
    pose proof (keeps_files_initiate_export self E st) as H1.
    destruct (initiate_export self E st) as [[export_id | e] st1]; simpl in H1;
      [| now split].
    pose proof (keeps_files_poll_for_completion self export_id 60 5 E st1) as H2.
    destruct (poll_for_completion self export_id 60 5 E st1) as [[url | e] st2];
      simpl in H2; [discriminate |].
    split; [reflexivity |]. simpl. congruence. }
  destruct Hrun as [Hexit Hfiles]. repeat split; auto.
  intros path. now rewrite Hfiles.
Qed.

Lemma failure_before_download_keeps_files_sample :
  let E := scripted [json_reply (PDict [("exportId", PStr "abc123")]);
                     status_reply "running"; status_reply "failed"] 1000 in
  let st := set_files (<["notes.txt" := [x68; x69]]> ∅) fresh in
  fst (run sample_exporter E st) = Raise (SystemExit 1)
  ∧ files (snd (run sample_exporter E st)) = files st
  ∧ (∀ path, files st !! path = None →
             files (snd (run sample_exporter E st)) !! path = None).
Proof.
  intros E st.
  apply (failure_before_download_keeps_files sample_exporter E st).
  vm_compute. reflexivity.
Defined.

(** The end-to-end scenario: the creation response carries the
    identifier [abc123], the first status is [succeeded] with a URL, the
    download succeeds. *)
Lemma exit_code_reflects_the_three_steps_sample :
  let E := scripted [json_reply (PDict [("exportId", PStr "abc123")]);
                     succeeded_reply "https://x/y.zip"; complete_download] 1000 in
  fst (main E fresh) = 0
  ∧ files (snd (main E fresh)) !! "transactions_abc123.zip"
    = Some [x50; x4b; x03; x04].
Proof.
  intros E. split.
  - apply (proj1 (exit_code_reflects_the_three_steps E fresh)).
    eexists _, _, _, _, _.
    split; [vm_compute; reflexivity |].
    split; [vm_compute; reflexivity |].
    split; [vm_compute; reflexivity |].
    split; [vm_compute; reflexivity |].
    vm_compute. eauto.
  - vm_compute. reflexivity.
Defined.

(** * Further properties *)

(** ** The export request *)

(** Whatever the service answers, [initiate_export] makes one network
    call, the creation request, and changes nothing else. *)
Lemma initiate_export_state self E st :
  snd (initiate_export self E st) = advance 1 [creation_request self] st.
Proof.
  unfold initiate_export, requests_post, network_call, raise_for_status,
    response_json, py_in, py_getitem, fstr, try_except, mbind, M_bind, mret, M_ret,
    raise, advance, creation_request.
  rewrite Nat.add_1_r.
  destruct (net E (calls st)) as [detail | r]; [reflexivity |].
  destruct (http_error (status_code r)); [reflexivity |].
  destruct (json_body r) as [data |]; [| reflexivity].
  destruct data as [| b | n | x | s | items | d]; simpl; try reflexivity.
  - now destruct (str_contains "exportId" s).
  - now destruct (existsb _ items).
  - destruct (dict_lookup "exportId" d) eqn:Hd; simpl; rewrite ?Hd; reflexivity.
Qed.

(** X1. [initiate_export] returns an identifier exactly when the reply
    is an HTTP success whose JSON object has an [exportId]; it returns
    the value found there, whatever its type. *)
Theorem initiate_export_returns_the_identifier self E st export_id :
  fst (initiate_export self E st) = Ok export_id
  ↔ ∃ d, json_of_reply (net E (calls st)) = Some (PDict d)
         ∧ dict_lookup "exportId" d = Some export_id.
Proof.
  split.
  - unfold initiate_export, requests_post, network_call, raise_for_status,
      response_json, py_in, py_getitem, fstr, try_except, mbind, M_bind, mret, M_ret,
      raise, json_of_reply.
    destruct (net E (calls st)) as [detail | r]; [discriminate |].
    destruct (http_error (status_code r)); [discriminate |].
    destruct (json_body r) as [data |]; [| discriminate].
    destruct data as [| b | n | x | s | items | d]; simpl; try discriminate.
    + destruct (str_contains "exportId" s); discriminate.
    + destruct (existsb _ items); discriminate.
    + destruct (dict_lookup "exportId" d) as [v |] eqn:Hd; simpl.
      * rewrite ?Hd. simpl. intros [= ->]. eauto.
      * discriminate.
  - intros (d & Hj & Hd). now rewrite (initiate_export_ok self E st d export_id Hj Hd).
Qed.

(** X2. The creation request is the only thing [initiate_export] does to
    the world, on success and on every failure; it is a POST to
    [<base_url>/transactions] carrying the six query parameters, each
    once. *)
Theorem initiate_export_makes_one_request self E st :
  snd (initiate_export self E st)
  = advance 1 [HttpPost (base_url self ++ "/transactions") (export_params self) 30] st
  ∧ map fst (export_params self)
    = ["includedChainIds"; "address"; "limit"; "dateFrom"; "dateTo"; "csvSeparator"]
  ∧ NoDup (map fst (export_params self)).
Proof.
  split; [apply initiate_export_state |]. split; [reflexivity |].
  apply (bool_decide_unpack _). vm_compute. reflexivity.
Qed.

(** X3. A creation response whose JSON body is not an object never gives
    an identifier. When the membership test ["exportId" in data] is
    false (a list without that element, a string without that text) the
    "Failed to initiate export" exception is raised; otherwise (a value
    that is not iterable, or a list or string on which the test is true
    and the subscript then fails) a [TypeError]. *)
Theorem initiate_export_non_object_body self E st data :
  json_of_reply (net E (calls st)) = Some data →
  (∀ d, data ≠ PDict d) →
  fst (initiate_export self E st)
  = match fst (py_in "exportId" data E st) with
    | Ok false => Raise (RequestFailed E data)
    | _ => Raise TypeError
    end.
Proof.
  intros Hj Hnd.
  unfold initiate_export, requests_post, network_call, raise_for_status,
    response_json, fstr, try_except, mbind, M_bind, mret, M_ret, raise.
  destruct (net E (calls st)) as [detail | r]; simpl in Hj; [discriminate |].
  destruct (http_error (status_code r)); [discriminate |].
  rewrite Hj.
  destruct data as [| b | n | x | s | items | d]; simpl; try reflexivity.
  - now destruct (str_contains "exportId" s).
  - now destruct (existsb _ items).
  - now destruct (Hnd d).
Qed.

Lemma initiate_export_non_object_body_sample :
  let E := scripted [json_reply (PStr "unknown exportId")] 1000 in
  fst (initiate_export sample_exporter E fresh)
  = match fst (py_in "exportId" (PStr "unknown exportId") E fresh) with
    | Ok false => Raise (RequestFailed E (PStr "unknown exportId"))
    | _ => Raise TypeError
    end.
Proof.
  intros E.
  apply (initiate_export_non_object_body sample_exporter E fresh
           (PStr "unknown exportId")); [reflexivity | discriminate].
Defined.

(** ** The status query *)

(** What a status query returns is the decoded body of the reply. *)
Lemma check_export_status_decoded self export_id E st v st' :
  check_export_status self export_id E st = (Ok v, st') →
  json_of_reply (net E (calls st)) = Some v.
Proof.
  unfold check_export_status, fstr, requests_get, network_call,
    raise_for_status, response_json, try_except, mbind, M_bind, json_of_reply.
  destruct (net E (calls st)) as [detail | r]; simpl; [discriminate |].
  destruct (http_error (status_code r)); simpl; [discriminate |].
  destruct (json_body r); simpl; [| discriminate].
  now intros [= -> _].
Qed.

(** X4. [check_export_status] always makes exactly one request, a GET of
    [<base_url>/<export_id>]; it returns the decoded body when the reply
    is an HTTP success with a JSON body, and raises a
    [RequestException] in every other case. *)
Theorem check_export_status_outcome self export_id E st :
  snd (check_export_status self export_id E st)
  = advance 1 [HttpGet (PStr (base_url self ++ "/" ++ py_str E export_id)) false 30] st
  ∧ match json_of_reply (net E (calls st)) with
    | Some v => fst (check_export_status self export_id E st) = Ok v
    | None => ∃ detail,
        fst (check_export_status self export_id E st) = Raise (RequestException detail)
    end.
Proof.
  split; [apply check_export_status_state |].
  destruct (json_of_reply (net E (calls st))) as [v |] eqn:Hj.
  - now rewrite (check_export_status_ok self export_id E st v Hj).
  - destruct (check_export_status self export_id E st) as [[v | e] st'] eqn:Hq.
    + pose proof (check_export_status_decoded _ _ _ _ _ _ Hq). congruence.
    + pose proof (check_export_status_raises _ _ _ _ _ _ Hq) as He.
      destruct e; try discriminate. simpl. eauto.
Qed.

(** ** Every turn of the poller *)

Lemma time_sleep_negative seconds E st :
  seconds < 0 → time_sleep seconds E st = (Raise ValueError, st).
Proof.
  intros H. unfold time_sleep.
  destruct (Z.ltb_spec seconds 0) as [_ | Hge]; [reflexivity | lia].
Qed.

(** The [except] block of a turn either sleeps once or raises, and does
    nothing else. *)
Lemma poll_handler_cases (attempt max_attempts interval_seconds : Z) e E st :
  (if attempt =? max_attempts then raise e
   else (_ ← time_sleep interval_seconds; mret None)) E st
  = (Ok (None : option pyval), advance 0 [Sleep interval_seconds] st)
  ∨ ∃ e', (if attempt =? max_attempts then raise e
           else (_ ← time_sleep interval_seconds; mret None)) E st
          = (Raise e' : outcome (option pyval), st).
Proof.
  destruct (attempt =? max_attempts); [right; now exists e |].
  unfold mbind, M_bind, mret, M_ret.
  destruct (Z.lt_ge_cases interval_seconds 0) as [Hneg | Hpos].
  - right. exists ValueError. now rewrite time_sleep_negative.
  - left. now rewrite time_sleep_ok.
Qed.

Lemma poll_attempt_unfold self export_id max_attempts interval_seconds attempt :
  poll_attempt self export_id max_attempts interval_seconds attempt
  = try_except (poll_try self export_id interval_seconds) is_Exception
      (λ e, if attempt =? max_attempts then raise e
            else (_ ← time_sleep interval_seconds; mret None)).
Proof. reflexivity. Qed.

(** The [try] block of a turn: it returns on a [succeeded] status, falls
    through after one delay, or raises; the query is always made, and a
    delay only when it falls through. *)
Lemma poll_try_cases self export_id interval_seconds E st :
  let q := status_query self E export_id in
  (∃ d, json_of_reply (net E (calls st)) = Some (PDict d)
        ∧ dict_lookup "status" d = Some (PStr "succeeded")
        ∧ poll_try self export_id interval_seconds E st
          = (Ok (Some (default PNone (dict_lookup "url" d))), advance 1 [q] st))
  ∨ poll_try self export_id interval_seconds E st
    = (Ok None, advance 1 [q; Sleep interval_seconds] st)
  ∨ ∃ e, is_Exception e = true
         ∧ poll_try self export_id interval_seconds E st = (Raise e, advance 1 [q] st).
Proof.
  intros q.
  pose proof (check_export_status_state self export_id E st) as Hst.
  fold q in Hst.
  remember (poll_try self export_id interval_seconds E st) as T eqn:HT.
  unfold poll_try in HT.
  destruct (check_export_status self export_id E st) as [[status | e] st1] eqn:Hq;
    simpl in Hst; subst st1.
  2: { rewrite (bind_raise _ _ _ _ _ _ Hq) in HT. right. right. exists e.
       split; [| exact HT].
       pose proof (check_export_status_raises _ _ _ _ _ _ Hq). now destruct e. }
  pose proof (check_export_status_decoded _ _ _ _ _ _ Hq) as Hj.
  rewrite (bind_ok _ _ _ _ _ _ Hq) in HT.
  destruct status as [| b | n | x | s | items | d];
    try (right; right; exists AttributeError; split; [reflexivity | exact HT]).
  unfold py_get, mbind, M_bind, mret, M_ret in HT.
  destruct (py_eq_str (default PNone (dict_lookup "status" d)) "succeeded") eqn:Hs.
  { left. exists d. split; [exact Hj |]. split; [| exact HT].
    destruct (dict_lookup "status" d) as [[| | | | s | |] |]; try discriminate.
    simpl in Hs. apply String.eqb_eq in Hs. now subst s. }
  right.
  destruct (py_eq_str (default PNone (dict_lookup "status" d)) "failed").
  { right. now exists (Exception "Export failed"). }
  assert (Hsame : T = match time_sleep interval_seconds E (advance 1 [q] st) with
                      | (Ok _, st') => (Ok None, st')
                      | (Raise e, st') => (Raise e, st')
                      end).
  { now destruct (py_eq_str (default PNone (dict_lookup "status" d)) "running"). }
  clear HT. destruct (Z.lt_ge_cases interval_seconds 0) as [Hneg | Hpos].
  - right. exists ValueError. split; [reflexivity |].
    now rewrite time_sleep_negative in Hsame.
  - left. now rewrite time_sleep_ok, advance_advance in Hsame.
Qed.

(** The three ways a turn can end: it returns on a [succeeded] status,
    after the query alone; it falls through after the query and one
    delay; or it raises after the query alone. *)
Lemma poll_attempt_cases self export_id max_attempts interval_seconds attempt E st :
  let q := status_query self E export_id in
  let turn := poll_attempt self export_id max_attempts interval_seconds attempt E st in
  (∃ d, json_of_reply (net E (calls st)) = Some (PDict d)
        ∧ dict_lookup "status" d = Some (PStr "succeeded")
        ∧ turn = (Ok (Some (default PNone (dict_lookup "url" d))), advance 1 [q] st))
  ∨ turn = (Ok None, advance 1 [q; Sleep interval_seconds] st)
  ∨ ∃ e, turn = (Raise e, advance 1 [q] st).
Proof.
  intros q turn. subst turn. rewrite poll_attempt_unfold. unfold try_except.
  destruct (poll_try_cases self export_id interval_seconds E st)
    as [(d & Hj & Hs & Ht) | [Ht | (e & He & Ht)]]; fold q in Ht; rewrite Ht.
  - left. now exists d.
  - right. now left.
  - right. rewrite He.
    destruct (poll_handler_cases attempt max_attempts interval_seconds e E
                (advance 1 [q] st)) as [H | [e' H]]; rewrite H.
    + left. now rewrite advance_advance.
    + right. now exists e'.
Qed.

(** A turn on a reply that makes the poller wait. *)
Lemma poll_attempt_waits self export_id max_attempts interval_seconds attempt E st :
  keeps_waiting (net E (calls st)) = true →
  0 ≤ interval_seconds →
  poll_attempt self export_id max_attempts interval_seconds attempt E st
  = (Ok None, advance 1 [status_query self E export_id; Sleep interval_seconds] st).
Proof.
  unfold keeps_waiting. intros Hw Hi.
  destruct (json_of_reply (net E (calls st))) as [[| | | | | | d] |] eqn:Hj;
    try discriminate.
  apply andb_prop in Hw as [Hs Hf].
  apply negb_true_iff in Hs. apply negb_true_iff in Hf.
  apply (check_export_status_ok self export_id) in Hj.
  rewrite poll_attempt_unfold. apply try_ok.
  unfold poll_try. rewrite (bind_ok _ _ _ _ _ _ Hj).
  unfold py_get, mbind, M_bind, mret, M_ret. rewrite Hs, Hf.
  destruct (py_eq_str _ "running");
    now rewrite time_sleep_ok, advance_advance by exact Hi.
Qed.

(** With a negative delay, the first turn that would wait raises the
    [ValueError] of [time.sleep]. *)
Lemma poll_attempt_negative_delay
    self export_id max_attempts interval_seconds attempt E st :
  keeps_waiting (net E (calls st)) = true →
  interval_seconds < 0 →
  poll_attempt self export_id max_attempts interval_seconds attempt E st
  = (Raise ValueError, advance 1 [status_query self E export_id] st).
Proof.
  unfold keeps_waiting. intros Hw Hi.
  destruct (json_of_reply (net E (calls st))) as [[| | | | | | d] |] eqn:Hj;
    try discriminate.
  apply andb_prop in Hw as [Hs Hf].
  apply negb_true_iff in Hs. apply negb_true_iff in Hf.
  apply (check_export_status_ok self export_id) in Hj.
  rewrite poll_attempt_unfold.
  erewrite try_caught with (e := ValueError); [| | reflexivity].
  - destruct (attempt =? max_attempts); [reflexivity |].
    unfold mbind, M_bind. now rewrite time_sleep_negative.
  - unfold poll_try. rewrite (bind_ok _ _ _ _ _ _ Hj).
    unfold py_get, mbind, M_bind, mret, M_ret. rewrite Hs, Hf.
    destruct (py_eq_str _ "running");
      now rewrite time_sleep_negative by exact Hi.
Qed.


(** Turns that all fall through after their delay leave the rest of the
    loop to run, [length pre] queries and delays later. *)
Lemma poll_loop_prefix self export_id max_attempts interval_seconds E rest
    (pre : list Z) :
  ∀ st,
    (∀ j a, pre !! j = Some a →
       poll_attempt self export_id max_attempts interval_seconds a E
         (advance j (waiting (status_query self E export_id) interval_seconds j) st)
       = (Ok None,
          advance 1 [status_query self E export_id; Sleep interval_seconds]
            (advance j (waiting (status_query self E export_id) interval_seconds j)
               st))) →
    poll_loop self export_id max_attempts interval_seconds (pre ++ rest) E st
    = poll_loop self export_id max_attempts interval_seconds rest E
        (advance (List.length pre)
           (waiting (status_query self E export_id) interval_seconds (List.length pre))
           st).
Proof.
  induction pre as [| a pre IH]; intros st Hturns.
  - simpl. now rewrite advance_0.
  - pose proof (Hturns 0%nat a eq_refl) as H0. simpl in H0. rewrite advance_0 in H0.
    change ((a :: pre) ++ rest)%list with (a :: (pre ++ rest))%list.
    rewrite (poll_loop_next _ _ _ _ _ _ _ _ _ H0).
    rewrite IH.
    + now rewrite advance_advance.
    + intros j b Hb. specialize (Hturns (S j) b Hb).
      now rewrite !advance_advance in *.
Qed.

(** ** The poller, for every service *)

(** [n] turns that wait, from the first attempt number on. *)
Lemma poll_loop_waiting_prefix self export_id max_attempts interval_seconds E rest
    (first : Z) (n : nat) st :
  0 ≤ interval_seconds →
  (∀ j, (j < n)%nat → keeps_waiting (net E (calls st + j)) = true) →
  poll_loop self export_id max_attempts interval_seconds
    (seqZ first (Z.of_nat n) ++ rest) E st
  = poll_loop self export_id max_attempts interval_seconds rest E
      (advance n (waiting (status_query self E export_id) interval_seconds n) st).
Proof.
  intros Hi Hw. rewrite poll_loop_prefix.
  - now rewrite length_seqZ, Nat2Z.id.
  - intros j a Ha. apply lookup_seqZ in Ha as [_ Hj].
    apply poll_attempt_waits; [| exact Hi]. simpl. apply Hw. lia.
Qed.

(** X5. Any status other than [succeeded] and [failed] makes the poller
    wait, be it [running], an unknown string, a value that is no string,
    or a missing status: [n] such replies on a budget of [n] give [n]
    queries, each followed by one delay, and then the timeout. *)
Theorem poll_waits_on_every_other_status self export_id interval_seconds E st (n : nat) :
  0 ≤ interval_seconds →
  (∀ j, (j < n)%nat → keeps_waiting (net E (calls st + j)) = true) →
  poll_for_completion self export_id (Z.of_nat n) interval_seconds E st
  = (Raise (PollTimeout (Z.of_nat n)),
     advance n (waiting (status_query self E export_id) interval_seconds n) st).
Proof.
  intros Hi Hw. unfold poll_for_completion.
  rewrite <- (app_nil_r (seqZ 1 (Z.of_nat n))).
  now rewrite poll_loop_waiting_prefix.
Qed.

Lemma poll_waits_on_every_other_status_sample :
  let E := scripted [status_reply "queued"; json_reply (PDict []);
                     json_reply (PDict [("status", PInt 7)])] 1000 in
  let q := status_query sample_exporter E (PStr "abc123") in
  poll_for_completion sample_exporter (PStr "abc123") 3 5 E fresh
  = (Raise (PollTimeout 3), advance 3 [q; Sleep 5; q; Sleep 5; q; Sleep 5] fresh).
Proof.
  intros E q.
  apply (poll_waits_on_every_other_status sample_exporter (PStr "abc123") 5 E fresh 3).
  - lia.
  - intros j Hlt. destruct j as [| [| [| j]]]; [reflexivity .. | lia].
Defined.



(** X8. With a budget of zero or less the range of attempts is empty:
    the poller raises the timeout at once, without a query or a delay. *)
Theorem poll_empty_budget self export_id max_attempts interval_seconds E st :
  max_attempts ≤ 0 →
  poll_for_completion self export_id max_attempts interval_seconds E st
  = (Raise (PollTimeout max_attempts), st).
Proof.
  intros Hle. unfold poll_for_completion. now rewrite seqZ_nil.
Qed.

Lemma poll_empty_budget_sample :
  poll_for_completion sample_exporter (PStr "abc123") 0 5
    (scripted [succeeded_reply "https://x/y.zip"] 1000) fresh
  = (Raise (PollTimeout 0), fresh).
Proof.
  apply (poll_empty_budget sample_exporter (PStr "abc123") 0 5). lia.
Defined.

(** X9. After [n] replies that make it wait, a [succeeded] reply on turn
    [n + 1], within the budget, ends the poll: it returns what
    [status.get("url")] gives, after [n + 1] queries and [n] delays; no
    delay follows the last query. *)
Theorem poll_returns_after_waiting
    self export_id max_attempts interval_seconds E st (n : nat) d :
  Z.of_nat n < max_attempts →
  0 ≤ interval_seconds →
  (∀ j, (j < n)%nat → keeps_waiting (net E (calls st + j)) = true) →
  json_of_reply (net E (calls st + n)) = Some (PDict d) →
  dict_lookup "status" d = Some (PStr "succeeded") →
  let q := status_query self E export_id in
  let polls := (waiting q interval_seconds n ++ [q])%list in
  poll_for_completion self export_id max_attempts interval_seconds E st
  = (Ok (default PNone (dict_lookup "url" d)), advance (S n) polls st)
  ∧ count is_query polls = S n
  ∧ count is_delay polls = n.
Proof.
  intros Hn Hi Hw Hj Hs q polls. split.
  - unfold poll_for_completion.
    replace max_attempts with (Z.of_nat n + (max_attempts - Z.of_nat n)) at 2 by lia.
    rewrite seqZ_app by lia.
    rewrite poll_loop_waiting_prefix by assumption.
    rewrite seqZ_cons by lia.
    erewrite poll_loop_return.
    2: { eapply poll_attempt_succeeded; [| exact Hs].
         apply check_export_status_ok. exact Hj. }
    now rewrite advance_advance, Nat.add_1_r.
  - pose proof (waiting_queries self E export_id interval_seconds n) as (Hq & _ & Hd).
    subst polls. rewrite !count_app. fold q in Hq, Hd. rewrite Hq, Hd.
    split; [apply Nat.add_1_r | apply Nat.add_0_r].
Qed.

Lemma poll_returns_after_waiting_sample :
  let E := scripted [succeeded_reply "https://x/y.zip"] 1000 in
  let q := status_query sample_exporter E (PStr "abc123") in
  poll_for_completion sample_exporter (PStr "abc123") 60 5 E fresh
  = (Ok (PStr "https://x/y.zip"), advance 1 [q] fresh)
  ∧ count is_query [q] = 1%nat
  ∧ count is_delay [q] = 0%nat.
Proof.
  intros E q.
  apply (poll_returns_after_waiting sample_exporter (PStr "abc123") 60 5 E fresh 0
           [("status", PStr "succeeded"); ("url", PStr "https://x/y.zip")]);
    try reflexivity; try lia.
Defined.

Lemma count_status_query self E export_id :
  count is_query [status_query self E export_id] = 1%nat
  ∧ count is_delay [status_query self E export_id] = 0%nat.
Proof. now split. Qed.

(** What the loop does to the world, for any replies: some queries and
    delays, no more queries than attempt numbers, no more delays than
    queries. *)
Lemma poll_loop_bound self export_id max_attempts interval_seconds E
    (attempts : list Z) :
  ∀ st, ∃ evs,
    snd (poll_loop self export_id max_attempts interval_seconds attempts E st)
    = advance (count is_query evs) evs st
    ∧ (count is_query evs ≤ List.length attempts)%nat
    ∧ (count is_delay evs ≤ count is_query evs)%nat
    ∧ Forall (λ ev, ev = status_query self E export_id ∨ ev = Sleep interval_seconds)
        evs.
Proof.
  induction attempts as [| a rest IH]; intros st.
  - exists []. simpl. rewrite advance_0. repeat split; auto.
  - destruct (poll_attempt_cases self export_id max_attempts interval_seconds a E st)
      as [(d & _ & _ & Ht) | [Ht | (e & Ht)]].
    + exists [status_query self E export_id].
      rewrite (poll_loop_return _ _ _ _ _ _ _ _ _ _ Ht). simpl.
      repeat split; auto with arith.
    + rewrite (poll_loop_next _ _ _ _ _ _ _ _ _ Ht).
      destruct (IH (advance 1 [status_query self E export_id; Sleep interval_seconds]
                      st)) as (evs & Hst & Hq & Hd & Hall).
      exists ([status_query self E export_id; Sleep interval_seconds] ++ evs)%list.
      rewrite Hst, advance_advance, !count_app.
      change (count is_query [status_query self E export_id; Sleep interval_seconds])
        with 1%nat.
      change (count is_delay [status_query self E export_id; Sleep interval_seconds])
        with 1%nat.
      repeat split; simpl; auto with arith.
    + exists [status_query self E export_id].
      rewrite (poll_loop_raise _ _ _ _ _ _ _ _ _ _ Ht). simpl.
      repeat split; auto with arith.
Qed.

(** X7. Whatever the service answers, [poll_for_completion] makes at
    most [max_attempts] status queries, never more delays than queries,
    and nothing else: every event is the status query for the job or a
    sleep of the given length, and no file is touched. *)
Theorem poll_stays_within_budget self export_id max_attempts interval_seconds E st :
  ∃ evs,
    snd (poll_for_completion self export_id max_attempts interval_seconds E st)
    = advance (count is_query evs) evs st
    ∧ (count is_query evs ≤ Z.to_nat max_attempts)%nat
    ∧ (count is_delay evs ≤ count is_query evs)%nat
    ∧ Forall (λ ev, ev = status_query self E export_id ∨ ev = Sleep interval_seconds)
        evs.
Proof.
  unfold poll_for_completion.
  destruct (poll_loop_bound self export_id max_attempts interval_seconds E
              (seqZ 1 max_attempts) st) as (evs & Hst & Hq & Hd & Hall).
  rewrite length_seqZ in Hq. now exists evs.
Qed.

(** A loop that returns has just read a [succeeded] reply. *)
Lemma poll_loop_sound self export_id max_attempts interval_seconds E
    (attempts : list Z) :
  ∀ st url st',
    poll_loop self export_id max_attempts interval_seconds attempts E st = (Ok url, st') →
    ∃ d, (calls st < calls st')%nat
         ∧ json_of_reply (net E (Nat.pred (calls st'))) = Some (PDict d)
         ∧ dict_lookup "status" d = Some (PStr "succeeded")
         ∧ url = default PNone (dict_lookup "url" d).
Proof.
  induction attempts as [| a rest IH]; intros st url st' Hrun; [discriminate |].
  destruct (poll_attempt_cases self export_id max_attempts interval_seconds a E st)
    as [(d & Hj & Hs & Ht) | [Ht | (e & Ht)]].
  - rewrite (poll_loop_return _ _ _ _ _ _ _ _ _ _ Ht) in Hrun.
    injection Hrun as <- <-. exists d. simpl.
    rewrite Nat.add_1_r. simpl. auto with arith.
  - rewrite (poll_loop_next _ _ _ _ _ _ _ _ _ Ht) in Hrun.
    destruct (IH _ _ _ Hrun) as (d & Hlt & Hj & Hs & Hu).
    exists d. simpl in Hlt. repeat split; auto. lia.
  - rewrite (poll_loop_raise _ _ _ _ _ _ _ _ _ _ Ht) in Hrun. discriminate.
Qed.

(** X10. The poller reports success only on the word of the service:
    when [poll_for_completion] returns, the reply to its last query was
    an HTTP success whose JSON object has status [succeeded], and the
    value returned is that object's [url] ([None] if it has none). *)
Theorem poll_success_comes_from_the_service
    self export_id max_attempts interval_seconds E st url st' :
  poll_for_completion self export_id max_attempts interval_seconds E st = (Ok url, st') →
  ∃ d, (calls st < calls st')%nat
       ∧ json_of_reply (net E (Nat.pred (calls st'))) = Some (PDict d)
       ∧ dict_lookup "status" d = Some (PStr "succeeded")
       ∧ url = default PNone (dict_lookup "url" d).
Proof.
  unfold poll_for_completion. intros Hrun.
  destruct (poll_loop_sound _ _ _ _ _ _ _ _ _ Hrun) as (d & Hlt & Hj & Hs & Hu).
  now exists d.
Qed.

Lemma poll_success_comes_from_the_service_sample :
  let E := scripted [status_reply "running"; succeeded_reply "https://x/y.zip"] 1000 in
  ∃ d, (calls fresh < 2)%nat
       ∧ json_of_reply (net E (Nat.pred 2)) = Some (PDict d)
       ∧ dict_lookup "status" d = Some (PStr "succeeded")
       ∧ PStr "https://x/y.zip" = default PNone (dict_lookup "url" d).
Proof.
  intros E.
  apply (poll_success_comes_from_the_service sample_exporter (PStr "abc123") 60 5 E
           fresh (PStr "https://x/y.zip")
           (advance 2 [status_query sample_exporter E (PStr "abc123"); Sleep 5;
                       status_query sample_exporter E (PStr "abc123")] fresh)).
  vm_compute. reflexivity.
Defined.

(** X11. A job that stays [failed] is reported as failed only when the
    budget is spent: with every reply [failed] and a budget of [n + 1],
    the poller makes [n + 1] queries and [n] delays and then raises
    "Export failed". *)
Theorem poll_persistent_failure self export_id interval_seconds E st (n : nat) :
  0 ≤ interval_seconds →
  (∀ j, (j ≤ n)%nat →
        reported_status (net E (calls st + j)) = Some (PStr "failed")) →
  let q := status_query self E export_id in
  poll_for_completion self export_id (Z.of_nat (S n)) interval_seconds E st
  = (Raise ExportFailed, advance (S n) (waiting q interval_seconds n ++ [q])%list st).
Proof.
  intros Hi Hf q. unfold poll_for_completion.
  rewrite seqZ_S, poll_loop_prefix.
  - rewrite length_seqZ, Nat2Z.id.
    destruct (reported_status_dict _ _ (Hf n (Nat.le_refl n))) as (d & Hj & Hs).
    erewrite poll_loop_raise.
    2: { eapply poll_attempt_failed_last; [| exact Hs | lia].
         apply check_export_status_ok. exact Hj. }
    now rewrite advance_advance, Nat.add_1_r.
  - intros j a Ha. apply lookup_seqZ in Ha as [-> Hj].
    assert (Hle : (j ≤ n)%nat) by lia.
    destruct (reported_status_dict _ _ (Hf j Hle)) as (d & Hd & Hs).
    apply (check_export_status_ok self export_id E
             (advance j (waiting q interval_seconds j) st)) in Hd.
    rewrite (poll_attempt_failed_retry _ _ _ _ _ _ _ _ d Hd Hs);
      [now rewrite advance_advance | lia | exact Hi].
Qed.

Lemma poll_persistent_failure_sample :
  let E := scripted [status_reply "failed"; status_reply "failed"] 1000 in
  let q := status_query sample_exporter E (PStr "abc123") in
  poll_for_completion sample_exporter (PStr "abc123") 2 5 E fresh
  = (Raise ExportFailed, advance 2 [q; Sleep 5; q] fresh).
Proof.
  intros E q.
  apply (poll_persistent_failure sample_exporter (PStr "abc123") 5 E fresh 1).
  - lia.
  - intros j Hle. destruct j as [| [| j]]; [reflexivity .. | lia].
Defined.

(** X12. A negative delay is refused by [time.sleep]: on the first reply
    that makes the poller wait, the [ValueError] leaves the poller after
    that one query, on the last turn as on any other. *)
Theorem poll_negative_delay self export_id max_attempts interval_seconds E st :
  1 ≤ max_attempts →
  interval_seconds < 0 →
  keeps_waiting (net E (calls st)) = true →
  poll_for_completion self export_id max_attempts interval_seconds E st
  = (Raise ValueError, advance 1 [status_query self E export_id] st).
Proof.
  intros Hmax Hi Hw. unfold poll_for_completion. rewrite seqZ_cons by lia.
  erewrite poll_loop_raise; [reflexivity |].
  now apply poll_attempt_negative_delay.
Qed.

Lemma poll_negative_delay_sample :
  let E := scripted [status_reply "running"] 1000 in
  poll_for_completion sample_exporter (PStr "abc123") 60 (-1) E fresh
  = (Raise ValueError,
     advance 1 [status_query sample_exporter E (PStr "abc123")] fresh).
Proof.
  intros E.
  apply (poll_negative_delay sample_exporter (PStr "abc123") 60 (-1) E fresh);
    [lia | lia | reflexivity].
Defined.

(** ** The downloader, for every service *)

(** Chunks that are all written extend the file by their concatenation;
    this needs a transfer that does not break. *)
Lemma write_chunks_ok filename broken E (chunks : list (list byte)) :
  ∀ (old : list byte) st st',
    files st !! filename = Some old →
    write_chunks filename chunks broken E st = (Ok tt, st') →
    broken = None
    ∧ st' = set_files (<[filename := (old ++ concat chunks)%list]> (files st)) st.
Proof.
  induction chunks as [| chunk rest IH]; intros old st st' Hold; simpl.
  - destruct broken; [discriminate |]. intros [= <-].
    split; [reflexivity |].
    now rewrite app_nil_r, insert_id, set_files_same by exact Hold.
  - destruct chunk as [| b chunk]; unfold mbind, M_bind, mret, M_ret.
    + simpl. now apply IH.
    + unfold file_write. rewrite Hold. simpl default.
      destruct (_ <=? _)%N; [| discriminate].
      intros Hrest.
      apply (IH (old ++ b :: chunk)%list) in Hrest as [Hb ->].
      * split; [exact Hb |]. simpl.
        now rewrite set_files_twice, insert_insert_eq, <- app_assoc.
      * simpl. apply lookup_insert_eq.
Qed.

(** Writing chunks touches the destination only. *)
Lemma write_chunks_frame filename broken E path (chunks : list (list byte)) :
  path ≠ filename →
  ∀ st, files (snd (write_chunks filename chunks broken E st)) !! path
        = files st !! path.
Proof.
  intros Hne. induction chunks as [| chunk rest IH]; intros st; simpl.
  - now destruct broken.
  - destruct chunk as [| b chunk]; unfold mbind, M_bind, mret, M_ret.
    + apply IH.
    + unfold file_write. destruct (_ <=? _)%N; [| reflexivity].
      rewrite IH. simpl. now apply lookup_insert_ne.
Qed.

(** A download returns only if its [try] block does. *)
Lemma download_file_returns self url filename E st name st' :
  download_file self url filename E st = (Ok name, st') →
  download_try url filename E st = (Ok name, st').
Proof.
  rewrite download_file_unfold.
  destruct (download_try url filename E st) as [[name0 | e] st0]; [trivial |].
  destruct (is_RequestException e); discriminate.
Qed.

(** The state the [try] block leaves when it completes. *)
Lemma download_try_ok_state url filename E st name st' :
  download_try url filename E st = (Ok name, st') →
  ∃ r, net E (calls st) = Responded r
       ∧ http_error (status_code r) = false
       ∧ stream_error r = None
       ∧ name = filename
       ∧ st' = set_files (<[filename := concat (content r)]> (files st))
                 (advance 1 [HttpGet url true 300] st).
Proof.
  unfold download_try, requests_get, network_call, raise_for_status, open_wb,
    mbind, M_bind, mret, M_ret, raise.
  destruct (net E (calls st)) as [detail | r]; [discriminate |].
  destruct (http_error (status_code r)) eqn:Hc; [discriminate |].
  destruct (can_open E filename); [| discriminate].
  match goal with
  | |- context [write_chunks ?f ?c ?b ?E ?s] =>
      pose proof (write_chunks_ok f b E c [] s) as Hw;
      destruct (write_chunks f c b E s) as [[[] | e] st2]
  end; [| discriminate].
  intros [= <- <-].
  destruct (Hw st2) as [Hb ->]; [apply lookup_insert_eq | reflexivity |].
  exists r. repeat split; auto. simpl.
  unfold advance. rewrite Nat.add_1_r.
  now rewrite set_files_twice, insert_insert_eq.
Qed.

(** X13. A download that returns has stored the whole body: the reply was
    an HTTP success, its transfer did not break, and the destination now
    holds exactly the chunks received, in order, in place of whatever
    was there before. *)
Theorem download_success_stores_whole_body self url filename E st name st' :
  download_file self url filename E st = (Ok name, st') →
  ∃ r, net E (calls st) = Responded r
       ∧ http_error (status_code r) = false
       ∧ stream_error r = None
       ∧ name = filename
       ∧ st' = set_files (<[filename := concat (content r)]> (files st))
                 (advance 1 [HttpGet url true 300] st).
Proof.
  intros Hrun. apply download_file_returns in Hrun.
  now apply download_try_ok_state in Hrun.
Qed.

Lemma download_success_stores_whole_body_sample :
  let E := scripted [complete_download] 1000 in
  let st := set_files (<["transactions_abc123.zip" := [x00]]> ∅) fresh in
  let url := PStr "https://x/y.zip" in
  ∃ r, net E (calls st) = Responded r
       ∧ http_error (status_code r) = false
       ∧ stream_error r = None
       ∧ "transactions_abc123.zip" = "transactions_abc123.zip"
       ∧ set_files (<["transactions_abc123.zip" := [x50; x4b; x03; x04]]> ∅)
           (advance 1 [HttpGet url true 300] fresh)
         = set_files (<["transactions_abc123.zip" := concat (content r)]> (files st))
             (advance 1 [HttpGet url true 300] st).
Proof.
  intros E st url.
  apply (download_success_stores_whole_body sample_exporter url
           "transactions_abc123.zip" E st "transactions_abc123.zip").
  vm_compute. reflexivity.
Defined.

(** The [try] block of a download touches its destination only. *)
Lemma download_try_frame url filename E st path :
  path ≠ filename →
  files (snd (download_try url filename E st)) !! path = files st !! path.
Proof.
  intros Hne.
  unfold download_try, requests_get, network_call, raise_for_status, open_wb,
    mbind, M_bind, mret, M_ret, raise.
  destruct (net E (calls st)) as [detail | r]; [reflexivity |].
  destruct (http_error (status_code r)); [reflexivity |].
  destruct (can_open E filename); [| reflexivity].
  match goal with
  | |- context [write_chunks ?f ?c ?b ?E ?s] =>
      pose proof (write_chunks_frame f b E path c Hne s) as Hw;
      destruct (write_chunks f c b E s) as [[[] | e] st2]
  end; simpl in *; rewrite Hw; now apply lookup_insert_ne.
Qed.

(** Away from the destination, the cleanup changes nothing. *)
Lemma download_cleanup_frame self url filename E st path :
  path ≠ filename →
  files (snd (download_file self url filename E st)) !! path
  = files (snd (download_try url filename E st)) !! path.
Proof.
  intros Hne. rewrite download_file_unfold.
  destruct (download_try url filename E st) as [[name | e] st0]; [reflexivity |].
  destruct (is_RequestException e); [| reflexivity].
  simpl. now rewrite lookup_delete_ne by congruence.
Qed.

(** X14. [download_file] touches no file but its destination, however
    it ends. *)
Theorem download_touches_only_its_destination self url filename E st path :
  path ≠ filename →
  files (snd (download_file self url filename E st)) !! path = files st !! path.
Proof.
  intros Hne. rewrite download_cleanup_frame by exact Hne.
  now apply download_try_frame.
Qed.

Lemma download_touches_only_its_destination_sample :
  let E := scripted [broken_download] 1000 in
  let st := set_files (<["notes.txt" := [x68; x69]]> ∅) fresh in
  files (snd (download_file sample_exporter (PStr "https://x/y.zip")
                "transactions_abc123.zip" E st)) !! "notes.txt"
  = files st !! "notes.txt".
Proof.
  intros E st.
  apply (download_touches_only_its_destination sample_exporter (PStr "https://x/y.zip")
           "transactions_abc123.zip" E st "notes.txt").
  discriminate.
Defined.

(** X15. When the destination cannot be opened for writing, the
    [OSError] of [open] propagates after the one request; the files are
    as before, and a file already at the destination is neither
    truncated nor removed. *)
Theorem download_open_refused self url filename E st r :
  net E (calls st) = Responded r →
  http_error (status_code r) = false →
  can_open E filename = false →
  download_file self url filename E st
  = (Raise (OSError "open"), advance 1 [HttpGet url true 300] st).
Proof.
  intros Hn Hc Ho. rewrite download_file_unfold.
  unfold download_try, requests_get, network_call, raise_for_status, open_wb,
    mbind, M_bind, mret, M_ret, advance.
  rewrite Hn, Hc. simpl. now rewrite Ho, Nat.add_1_r.
Qed.

(** X16. A download that fails before anything is written (no response,
    or an error status) still runs the cleanup: a file that was already
    at the destination, left by an earlier run, is removed. *)
Theorem download_failure_removes_earlier_file self url filename E st (old : list byte) :
  files st !! filename = Some old →
  (∀ r, net E (calls st) = Responded r → http_error (status_code r) = true) →
  ∃ detail,
    download_file self url filename E st
    = (Raise (RequestException detail),
       set_files (delete filename (files st)) (advance 1 [HttpGet url true 300] st))
    ∧ files (snd (download_file self url filename E st)) !! filename = None.
Proof.
  intros Hold Hstatus.
  destruct (net E (calls st)) as [detail | r] eqn:Hn.
  - exists detail. rewrite (download_file_no_response _ _ _ _ _ _ Hn).
    split; [reflexivity |]. simpl. apply lookup_delete_eq.
  - eexists. rewrite (download_file_error_status _ _ _ _ _ _ Hn (Hstatus r eq_refl)).
    split; [reflexivity |]. simpl. apply lookup_delete_eq.
Qed.

Lemma download_open_refused_sample :
  let E := read_only (scripted [complete_download] 1000) in
  let st := set_files (<["transactions_abc123.zip" := [x00]]> ∅) fresh in
  download_file sample_exporter (PStr "https://x/y.zip") "transactions_abc123.zip" E st
  = (Raise (OSError "open"), advance 1 [HttpGet (PStr "https://x/y.zip") true 300] st).
Proof.
  intros E st.
  apply (download_open_refused sample_exporter (PStr "https://x/y.zip")
           "transactions_abc123.zip" E st
           {| status_code := 200; json_body := None;
              content := [[x50; x4b]; [x03; x04]]; stream_error := None |});
    reflexivity.
Defined.

Lemma download_failure_removes_earlier_file_sample :
  let E := scripted [not_found] 1000 in
  let st := set_files (<["transactions_abc123.zip" := [x50; x4b]]> ∅) fresh in
  let url := PStr "https://x/y.zip" in
  ∃ detail,
    download_file sample_exporter url "transactions_abc123.zip" E st
    = (Raise (RequestException detail),
       set_files (delete "transactions_abc123.zip" (files st))
         (advance 1 [HttpGet url true 300] st))
    ∧ files (snd (download_file sample_exporter url "transactions_abc123.zip" E st))
        !! "transactions_abc123.zip" = None.
Proof.
  intros E st url.
  apply (download_failure_removes_earlier_file sample_exporter url
           "transactions_abc123.zip" E st [x50; x4b]).
  - reflexivity.
  - intros r [= <-]. reflexivity.
Defined.

(** ** The run, for every service *)

Lemma count_network_poll_events q interval_seconds (evs : list event) :
  is_query q = true →
  Forall (λ ev, ev = q ∨ ev = Sleep interval_seconds) evs →
  count is_network evs = count is_query evs.
Proof.
  intros Hq Hall. induction Hall as [| ev evs [-> | ->] _ IH].
  - reflexivity.
  - change (q :: evs) with ([q] ++ evs)%list. rewrite !count_app, IH.
    f_equal. unfold count. simpl.
    destruct q as [| url [] timeout |]; try discriminate. reflexivity.
  - change (Sleep interval_seconds :: evs)
      with ([Sleep interval_seconds] ++ evs)%list.
    now rewrite !count_app, IH.
Qed.

(** X17. A run is bounded: whatever the service answers, [run] makes at
    most 62 network calls (the creation request, at most 60 status
    queries, at most one download request) and sleeps at most 60
    times. *)
Theorem run_is_bounded self E st :
  ∃ evs,
    trace (snd (run self E st)) = (trace st ++ evs)%list
    ∧ calls (snd (run self E st)) = (calls st + count is_network evs)%nat
    ∧ (count is_network evs ≤ 62)%nat
    ∧ (count is_delay evs ≤ 60)%nat.
Proof.
  rewrite run_unfold.
  pose proof (initiate_export_state self E st) as H1.
  destruct (initiate_export self E st) as [[export_id | e] st1]; simpl in H1; subst st1.
  2: { exists [creation_request self]. simpl. repeat split; auto with arith. }
  destruct (poll_loop_bound self export_id 60 5 E (seqZ 1 60)
              (advance 1 [creation_request self] st)) as (evs & H2 & Hq & Hd & Hall).
  fold (poll_for_completion self export_id 60 5) in H2.
  rewrite length_seqZ in Hq. change (Z.to_nat 60) with 60%nat in Hq.
  assert (Hn : count is_network evs = count is_query evs).
  { now apply (count_network_poll_events (status_query self E export_id) 5). }
  destruct (poll_for_completion self export_id 60 5 E _) as [[url | e] st2];
    simpl in H2; subst st2.
  2: { exists ([creation_request self] ++ evs)%list.
       rewrite advance_advance, !count_app, Hn. simpl.
       repeat split; auto with arith; lia. }
  match goal with
  | |- context [download_file ?s ?u ?f ?E ?st0] =>
      pose proof (download_file_trace s u f E st0) as [Hc Ht];
      destruct (download_file s u f E st0) as [[name | e] st3]
  end; simpl in Hc, Ht;
    exists (([creation_request self] ++ evs) ++ [HttpGet url true 300])%list;
    simpl snd; rewrite Hc, Ht, !count_app, Hn; simpl;
    (split; [now rewrite <- !app_assoc |]);
    (split; [change (count is_network [creation_request self]) with 1%nat;
             change (count is_network [HttpGet url true 300]) with 1%nat; lia |]);
    change (count is_network [creation_request self]) with 1%nat;
    change (count is_network [HttpGet url true 300]) with 1%nat;
    change (count is_delay [creation_request self]) with 0%nat;
    change (count is_delay [HttpGet url true 300]) with 0%nat; lia.
Qed.

(** X18. A run touches at most one file, its output
    [transactions_<exportId>.zip]: every other file is after the run
    what it was before, whether the run succeeds or fails. *)
Theorem run_touches_only_its_output self E st path :
  (∀ export_id, fst (initiate_export self E st) = Ok export_id →
                path ≠ output_name E export_id) →
  files (snd (run self E st)) !! path = files st !! path.
Proof.
  intros Hpath. rewrite run_unfold.
  pose proof (keeps_files_initiate_export self E st) as H1.
  destruct (initiate_export self E st) as [[export_id | e] st1]; simpl in *.
  2: { now rewrite H1. }
  pose proof (keeps_files_poll_for_completion self export_id 60 5 E st1) as H2.
  destruct (poll_for_completion self export_id 60 5 E st1) as [[url | e] st2];
    simpl in *.
  2: { now rewrite H2, H1. }
  assert (H3 : files (snd (download_file self url (output_name E export_id) E st2))
               !! path = files st2 !! path).
  { rewrite download_cleanup_frame by exact (Hpath _ eq_refl).
    apply download_try_frame, (Hpath _ eq_refl). }
  destruct (download_file self url (output_name E export_id) E st2)
    as [[name | e] st3]; simpl in *; now rewrite H3, H2, H1.
Qed.

Lemma run_touches_only_its_output_sample :
  let E := scripted [json_reply (PDict [("exportId", PStr "abc123")]);
                     succeeded_reply "https://x/y.zip"; complete_download] 1000 in
  let st := set_files (<["notes.txt" := [x68; x69]]> ∅) fresh in
  files (snd (run sample_exporter E st)) !! "notes.txt" = files st !! "notes.txt".
Proof.
  intros E st.
  apply (run_touches_only_its_output sample_exporter E st "notes.txt").
  intros export_id Hid. vm_compute in Hid. injection Hid as <-. discriminate.
Defined.

(** X19. When [run] returns normally, the output file
    [transactions_<exportId>.zip] holds exactly the body served in reply
    to the last network call of the run, the download request. *)
Theorem run_success_stores_the_download self E st st' :
  run self E st = (Ok tt, st') →
  ∃ export_id r,
    fst (initiate_export self E st) = Ok export_id
    ∧ net E (Nat.pred (calls st')) = Responded r
    ∧ files st' !! output_name E export_id = Some (concat (content r)).
Proof.
  rewrite run_unfold.
  destruct (initiate_export self E st) as [[export_id | e] st1]; [| discriminate].
  destruct (poll_for_completion self export_id 60 5 E st1) as [[url | e] st2];
    [| discriminate].
  destruct (download_file self url (output_name E export_id) E st2)
    as [[name | e] st3] eqn:Hd; [| discriminate].
  intros [= <-].
  apply download_file_returns in Hd.
  destruct (download_try_ok_state _ _ _ _ _ _ Hd) as (r & Hn & _ & _ & _ & ->).
  exists export_id, r. simpl. rewrite Nat.add_1_r. simpl.
  repeat split; auto. apply lookup_insert_eq.
Qed.

Lemma run_success_stores_the_download_sample :
  let E := scripted [json_reply (PDict [("exportId", PStr "abc123")]);
                     succeeded_reply "https://x/y.zip"; complete_download] 1000 in
  ∃ export_id r,
    fst (initiate_export sample_exporter E fresh) = Ok export_id
    ∧ net E (Nat.pred (calls (snd (run sample_exporter E fresh)))) = Responded r
    ∧ files (snd (run sample_exporter E fresh)) !! output_name E export_id
      = Some (concat (content r)).
Proof.
  intros E.
  apply (run_success_stores_the_download sample_exporter E fresh
           (snd (run sample_exporter E fresh))).
  vm_compute. reflexivity.
Defined.
